(** * Axial_BOTPT: the [parse_and_build.py] conversion pipeline

    A shallow embedding of [src/Axial_BOTPT/parse_and_build.py] and the
    properties its specification states about it.

    Conventions of the embedding.
    - Text is [string]; a character stands for a code point below 256.
    - An instant is a [Z]: nanoseconds since 1970-01-01T00:00:00 UTC, the
      representation of pandas' [datetime64[ns, UTC]].
    - A pressure value is a [Value]: a finite number, one of the two
      infinities, or NaN.  Python computes on binary64 floats; the embedding
      holds a finite number as an exact rational, so the rounding error and
      the overflow of finite arithmetic are not represented, while the
      infinities and NaN that a file holds, and the NaN their sums give,
      are.  A missing instant (NaT) is [None].
    - A raised Python exception is the [Raise] case of [result].
    - [print] appends a line to a log that [main] returns with its result. *)

From Stdlib Require Import List ZArith QArith Qround String Ascii Bool Lia.
From Stdlib Require Import Sorting.Sorted DecimalString.
From Stdlib Require Import Lqa.
Import ListNotations.

Set Implicit Arguments.

Local Open Scope bool_scope.
Local Open Scope list_scope.

(* ===================================================================== *)
(** ** Python values: exceptions and strings *)
(* ===================================================================== *)

Module Py.

(** The exception classes that can reach the [try]/[except Exception]
    blocks of the program.  All of them derive from [Exception]. *)
Inductive exn : Type :=
| CsvError (msg : string)        (* csv.Error, from the delimiter sniffer *)
| EmptyDataError (msg : string)  (* pandas.errors.EmptyDataError *)
| ParserError (msg : string)     (* pandas.errors.ParserError *)
| IndexError (msg : string)
| KeyError (msg : string)
| TypeError (msg : string)
| ValueError (msg : string).

(** [str(e)], as interpolated by the f-string of the warning. *)
Definition str (e : exn) : string :=
  match e with
  | CsvError m | EmptyDataError m | ParserError m | IndexError m
  | KeyError m | TypeError m | ValueError m => m
  end.

Inductive result (A : Type) : Type :=
| Ok (a : A)
| Raise (e : exn).
Arguments Ok {A} a.
Arguments Raise {A} e.

Definition bind {A B : Type} (m : result A) (k : A -> result B) : result B :=
  match m with
  | Ok a => k a
  | Raise e => Raise e
  end.

(** [try: m  except Exception: h] *)
Definition try_except {A : Type} (m : result A) (h : exn -> result A)
  : result A :=
  match m with
  | Ok a => Ok a
  | Raise e => h e
  end.

(** [str.lower] on one code point: A-Z, and the upper-case letters of the
    Latin-1 block (U+00C0 to U+00DE without the multiplication sign). *)
Definition lower_char (c : ascii) : ascii :=
  let n := nat_of_ascii c in
  if ((65 <=? n) && (n <=? 90))%nat
     || ((192 <=? n) && (n <=? 222) && negb (n =? 215))%nat
  then ascii_of_nat (n + 32)
  else c.

Fixpoint lower (s : string) : string :=
  match s with
  | EmptyString => EmptyString
  | String c r => String (lower_char c) (lower r)
  end.

(** The characters [str.strip()] removes: those for which [str.isspace]
    holds. *)
Definition isspace (c : ascii) : bool :=
  let n := nat_of_ascii c in
  (((9 <=? n) && (n <=? 13)) || ((28 <=? n) && (n <=? 32))
   || (n =? 133) || (n =? 160))%nat.

Fixpoint lstrip (s : string) : string :=
  match s with
  | EmptyString => EmptyString
  | String c r => if isspace c then lstrip r else s
  end.

(** [rstrip]: a character is kept when it is not a space or when something
    is kept after it. *)
Fixpoint rstrip (s : string) : string :=
  match s with
  | EmptyString => EmptyString
  | String c r =>
      match rstrip r with
      | EmptyString => if isspace c then EmptyString else String c EmptyString
      | r' => String c r'
      end
  end.

Definition strip (s : string) : string := rstrip (lstrip s).

(** [sep.join(parts)] *)
Fixpoint join (sep : string) (parts : list string) : string :=
  match parts with
  | [] => EmptyString
  | [p] => p
  | p :: ps => (p ++ sep ++ join sep ps)%string
  end.

(** [k in l] for a list of strings. *)
Fixpoint mem (k : string) (l : list string) : bool :=
  match l with
  | [] => false
  | x :: r => String.eqb k x || mem k r
  end.

(** [l.index(k)]: the position of the first element equal to [k]
    ([None] where Python raises [ValueError]). *)
Fixpoint index (k : string) (l : list string) : option nat :=
  match l with
  | [] => None
  | x :: r =>
      if String.eqb k x then Some 0%nat
      else option_map S (index k r)
  end.

End Py.

Import Py.

Declare Scope py_scope.
Delimit Scope py_scope with py.
Notation "x <- m ;; k" := (bind m (fun x => k))
  (at level 61, m at next level, right associativity) : py_scope.
Notation "' p <- m ;; k" := (bind m (fun p => k))
  (at level 61, p pattern, m at next level, right associativity) : py_scope.

(* ===================================================================== *)
(** ** Column inference: [_find_cols] *)
(* ===================================================================== *)

Definition time_keys : list string :=
  ["time"; "timestamp"; "date"; "datetime"]%string.
Definition val_keys : list string :=
  ["pressure"; "prs"; "kpa"; "psi"; "value"; "val"]%string.

(** [lc = [c.lower().strip() for c in df.columns]] *)
Definition lc_of (columns : list string) : list string :=
  map (fun c => strip (lower c)) columns.

(** [for k in keys: if k in lc: idx = lc.index(k); break], from
    [idx = None]. *)
Fixpoint first_key (keys lc : list string) : option nat :=
  match keys with
  | [] => None
  | k :: ks => if mem k lc then index k lc else first_key ks lc
  end.

(** The two indices [_find_cols] has computed when it reaches its
    [return]. *)
Definition find_idx (columns : list string) : nat * nat :=
  let lc := lc_of columns in
  let t_idx := first_key time_keys lc in
  let v_idx := first_key val_keys lc in
  let t_idx := match t_idx with None => 0%nat | Some i => i end in
  let v_idx :=
    match v_idx with
    | None =>
        let v_idx := if (1 <? List.length columns)%nat then 1%nat else 0%nat in
        if (v_idx =? t_idx)%nat && (1 <? List.length columns)%nat
        then 1%nat else v_idx
    | Some i => i
    end in
  (t_idx, v_idx).

(** [return df.columns[t_idx], df.columns[v_idx]] *)
Definition _find_cols (columns : list string) : result (string * string) :=
  let '(t_idx, v_idx) := find_idx columns in
  match nth_error columns t_idx, nth_error columns v_idx with
  | Some tcol, Some vcol => Ok (tcol, vcol)
  | _, _ => Raise (IndexError "index out of bounds")
  end.

(* ===================================================================== *)
(** ** The pandas operations the program calls *)
(* ===================================================================== *)

Module Pd.

(** An instant: nanoseconds since the epoch, UTC. *)
Abbreviation Timestamp := Z (only parsing).

(** A field as read from a file: its text, or [None] when the reader
    turned it into a missing value. *)
Definition cell : Type := option string.

(** The frame [read_csv] returns: labelled columns, in file order. *)
Definition RawFrame : Type := list (string * list cell).

(** A value of a numeric column: a finite number, held as an exact
    rational, one of the two infinities, or NaN. *)
Inductive Value : Type :=
| Num (q : Q)
| PosInf
| NegInf
| NaN.

(** [pd.isna(v)] *)
Definition isna (v : Value) : bool :=
  match v with
  | NaN => true
  | _ => false
  end.

(** The sum of two values: infinities of opposite signs give NaN. *)
Definition vadd (a b : Value) : Value :=
  match a, b with
  | NaN, _ | _, NaN => NaN
  | Num p, Num q => Num (p + q)
  | PosInf, NegInf | NegInf, PosInf => NaN
  | PosInf, _ | _, PosInf => PosInf
  | NegInf, _ | _, NegInf => NegInf
  end.

(** An infinity, positive or not, times a finite number. *)
Definition inf_times (positive : bool) (q : Q) : Value :=
  match (q ?= 0)%Q with
  | Eq => NaN
  | Gt => if positive then PosInf else NegInf
  | Lt => if positive then NegInf else PosInf
  end.

(** The product of two values. *)
Definition vmul (a b : Value) : Value :=
  match a, b with
  | NaN, _ | _, NaN => NaN
  | Num p, Num q => Num (p * q)
  | PosInf, Num q | Num q, PosInf => inf_times true q
  | NegInf, Num q | Num q, NegInf => inf_times false q
  | PosInf, PosInf | NegInf, NegInf => PosInf
  | PosInf, NegInf | NegInf, PosInf => NegInf
  end.

(** A value divided by a count of at least one. *)
Definition vdiv_count (v : Value) (n : nat) : Value :=
  match v with
  | Num q => Num (q / inject_Z (Z.of_nat n))
  | _ => v
  end.

(** [df.columns] *)
Definition columns (df : RawFrame) : list string := map fst df.

(** [len(df.index)] *)
Definition nrows (df : RawFrame) : nat :=
  match df with
  | [] => 0%nat
  | (_, c) :: _ => List.length c
  end.

(** [df.empty]: some axis has length 0. *)
Definition raw_empty (df : RawFrame) : bool :=
  (List.length df =? 0)%nat || (nrows df =? 0)%nat.

(** [df[label]] *)
Fixpoint getitem (df : RawFrame) (label : string) : result (list cell) :=
  match df with
  | [] => Raise (KeyError label)
  | (l, c) :: r => if String.eqb l label then Ok c else getitem r label
  end.

(** The two ways [load_dat] calls [read_csv]: [sep=None] (the delimiter is
    sniffed) and [sep=r"\s+"]. *)
Inductive Sep : Type := SepSniff | SepWhitespace.

(** The parsing entry points of pandas, with the arguments the program
    fixes.  Their behaviour on arbitrary text depends on the pandas version;
    the program is embedded over any implementation of them, and
    [Ref.parsers] below is one for plain files.
    - [read_csv sep text] is
      [pd.read_csv(path, sep=sep, engine="python", comment="#",
                   na_values=["", "NA", "NaN"])] on a file of content [text];
    - [to_datetime col] is [pd.to_datetime(col, errors="coerce", utc=True)],
      [None] being NaT;
    - [to_numeric col] is [pd.to_numeric(col, errors="coerce")];
    - [to_offset rule] is the width in nanoseconds, a positive number, of
      the fixed frequency [rule] names (a count of hours, minutes, seconds
      or fractions of a second, which [resample] bins by that width),
      [None] when [resample(rule)] raises.  The calendar frequencies that
      [resample] also accepts (weeks, month ends and the like, binned by
      the calendar) are outside the embedding. *)
Class Parsers : Type := {
  read_csv : Sep -> string -> result RawFrame;
  to_datetime : list cell -> result (list (option Timestamp));
  to_numeric : list cell -> result (list Value);
  to_offset : string -> option positive
}.

(** A frame with the columns [time] and a value column, one pair per row. *)
Definition Frame : Type := list (Timestamp * Value).

(** [pd.DataFrame({"time": t, "value": y}).dropna()]: the rows whose
    instant is not NaT and whose value is not NaN. *)
Fixpoint dropna (rows : list (option Timestamp * Value)) : Frame :=
  match rows with
  | [] => []
  | (Some t, v) :: r => if isna v then dropna r else (t, v) :: dropna r
  | (None, _) :: r => dropna r
  end.

(** [dropna()] on a frame whose instants are all present: the rows whose
    value is not NaN. *)
Definition frame_dropna (df : Frame) : Frame :=
  filter (fun r => negb (isna (snd r))) df.

(** [df.sort_values("time")], as a stable insertion sort: rows of equal
    time keep their order. *)
Fixpoint insert_row (r : Timestamp * Value) (l : Frame) : Frame :=
  match l with
  | [] => [r]
  | h :: t => if (fst r <=? fst h)%Z then r :: l else h :: insert_row r t
  end.

Definition sort_values (df : Frame) : Frame := fold_right insert_row [] df.

(** The sum of values, taken in their order. *)
Definition total (vs : list Value) : Value := fold_left vadd vs (Num 0).

(** [mean()] of a group or of a bin ([skipna=True]): the sum of the values
    that are not NaN divided by their number, NaN when there is none. *)
Definition mean (vs : list Value) : Value :=
  match filter (fun v => negb (isna v)) vs with
  | [] => NaN
  | ws => vdiv_count (total ws) (List.length ws)
  end.

(** The sorted distinct keys of a [groupby]. *)
Fixpoint insert_key (k : Z) (l : list Z) : list Z :=
  match l with
  | [] => [k]
  | h :: t =>
      if (k <? h)%Z then k :: l
      else if (k =? h)%Z then l
      else h :: insert_key k t
  end.

Definition sort_uniq (l : list Z) : list Z := fold_right insert_key [] l.

(** The values of the rows whose time is [k], in row order. *)
Definition values_at (k : Timestamp) (df : Frame) : list Value :=
  map snd (filter (fun r => (fst r =? k)%Z) df).

(** [df.groupby("time", as_index=False)["pressure_kPa"].mean()]: one row
    per distinct time, ascending, with the mean of that group. *)
Definition groupby_mean (df : Frame) : Frame :=
  map (fun k => (k, mean (values_at k df))) (sort_uniq (map fst df)).

(** One day, in nanoseconds. *)
Definition day_ns : Z := 86400000000000.

(** [Timestamp.normalize()]: midnight UTC of the same day. *)
Definition normalize (t : Timestamp) : Timestamp := (t - t mod day_ns)%Z.

(** The earliest and the latest of the instants [t0 :: ts]. *)
Definition earliest (t0 : Timestamp) (ts : list Timestamp) : Timestamp :=
  fold_left Z.min ts t0.

Definition latest (t0 : Timestamp) (ts : list Timestamp) : Timestamp :=
  fold_left Z.max ts t0.

(** The start of the bin of [t] and the end of the bin of [t], for bins of
    width [w] anchored at [origin]. *)
Definition bin_start (origin w : Z) (t : Timestamp) : Timestamp :=
  let offset := ((t - origin) mod w)%Z in
  if (0 <? offset)%Z then (t - offset)%Z else t.

Definition bin_stop (origin w : Z) (t : Timestamp) : Timestamp :=
  let offset := ((t - origin) mod w)%Z in
  if (0 <? offset)%Z then (t + (w - offset))%Z else (t + w)%Z.

(** The left edges of the bins of [resample(rule)] for a fixed frequency of
    [w] nanoseconds, with pandas' defaults [closed="left"], [label="left"]
    and [origin="start_day"]: the bins are anchored at midnight of the day
    of the earliest instant and run from the bin of the earliest instant to
    the bin of the latest one. *)
Definition bin_edges (w : Z) (times : list Timestamp) : list Timestamp :=
  match times with
  | [] => []
  | t0 :: ts =>
      let origin := normalize (earliest t0 ts) in
      let first := bin_start origin w (earliest t0 ts) in
      let last := bin_stop origin w (latest t0 ts) in
      map (fun i => (first + Z.of_nat i * w)%Z)
          (seq 0 (Z.to_nat ((last - first) / w)))
  end.

(** The values of the rows whose time falls in the bin [[e, e + w)]. *)
Definition values_in (e w : Z) (df : Frame) : list Value :=
  map snd (filter (fun r => (e <=? fst r)%Z && (fst r <? e + w)%Z) df).

(** [df.set_index("time")["pressure_kPa"].resample(rule).mean()]: one
    entry per bin, NaN for a bin without data. *)
Definition resample_mean (w : Z) (df : Frame) : Frame :=
  map (fun e => (e, mean (values_in e w df))) (bin_edges w (map fst df)).

(** [Series.dropna().reset_index()]: the entries whose value is not NaN. *)
Definition series_dropna (s : Frame) : Frame :=
  filter (fun r => negb (isna (snd r))) s.

(** Round half to even to the nearest integer. *)
Definition rint (q : Q) : Z :=
  let f := Qfloor q in
  match (q - inject_Z f ?= 1 # 2)%Q with
  | Lt => f
  | Gt => (f + 1)%Z
  | Eq => if Z.even f then f else (f + 1)%Z
  end.

(** [round(q, 4)] for a finite number. *)
Definition round4 (q : Q) : Q := Qred (rint (q * 10000) # 10000).

(** [Series.round(4)] on one value: the infinities and NaN are kept. *)
Definition round_value (v : Value) : Value :=
  match v with
  | Num q => Num (round4 q)
  | _ => v
  end.

(** Proleptic Gregorian date of a day number (days since 1970-01-01). *)
Definition civil_from_days (days : Z) : Z * Z * Z :=
  let z := (days + 719468)%Z in
  let era := (z / 146097)%Z in
  let doe := (z - era * 146097)%Z in
  let yoe := ((doe - doe / 1460 + doe / 36524 - doe / 146096) / 365)%Z in
  let doy := (doe - (365 * yoe + yoe / 4 - yoe / 100))%Z in
  let mp := ((5 * doy + 2) / 153)%Z in
  let d := (doy - (153 * mp + 2) / 5 + 1)%Z in
  let m := if (mp <? 10)%Z then (mp + 3)%Z else (mp - 9)%Z in
  let y := (yoe + era * 400 + (if (m <=? 2)%Z then 1 else 0))%Z in
  (y, m, d).

Definition digit (n : Z) : ascii := ascii_of_nat (48 + Z.to_nat (n mod 10)).

(** [n] in decimal, zero-padded to [width] digits (the low [width] digits
    when [n] has more). *)
Fixpoint zfill (width : nat) (n : Z) : string :=
  match width with
  | O => EmptyString
  | S w => (zfill w (n / 10) ++ String (digit n) EmptyString)%string
  end.

(** [Timestamp.strftime("%Y-%m-%dT%H:%M:%SZ")]: the instant cut to whole
    seconds. *)
Definition strftime (t : Timestamp) : string :=
  let secs := (t / 1000000000)%Z in
  let '(y, m, d) := civil_from_days (secs / 86400) in
  let sod := (secs mod 86400)%Z in
  (zfill 4 y ++ "-" ++ zfill 2 m ++ "-" ++ zfill 2 d ++ "T"
   ++ zfill 2 (sod / 3600) ++ ":" ++ zfill 2 (sod mod 3600 / 60) ++ ":"
   ++ zfill 2 (sod mod 60) ++ "Z")%string.

End Pd.

Import Pd.

(* ===================================================================== *)
(** ** The program *)
(* ===================================================================== *)

(** The settings at the top of the module.  [RESAMPLE_RULE] is [None] for
    Python's [None]. *)
Record Config : Type := {
  ASSUME_UNITS : string;
  LOCAL_TZ : string;
  RESAMPLE_RULE : option string
}.

(** The settings as the source has them. *)
Definition default_config : Config :=
  {| ASSUME_UNITS := "psi"; LOCAL_TZ := "UTC"; RESAMPLE_RULE := Some "15min"%string |}.

Definition RAW_DIR : string := "data/raw".
Definition OUT_DIR : string := "site/data".

Definition PSI_TO_KPA : Q := 689475729 # 100000000.

(** A [.dat] file under [RAW_DIR]: the parts of its path relative to
    [RAW_DIR] (the last one is the file name) and its text. *)
Record File : Type := {
  parts : list string;
  content : string
}.

(** [str(path)] *)
Definition path_str (f : File) : string :=
  (RAW_DIR ++ "/" ++ join "/" (parts f))%string.

Section Program.

Context {P : Parsers}.
Variable cfg : Config.

Local Open Scope py_scope.

(** [out["pressure_kPa"] = out["value"] * PSI_TO_KPA] or
    [out["pressure_kPa"] = out["value"]], then [drop(columns=["value"])]. *)
Definition to_kPa (out : Frame) : Frame :=
  if String.eqb (lower (ASSUME_UNITS cfg)) "psi"
  then map (fun r => (fst r, vmul (snd r) (Num PSI_TO_KPA))) out
  else map (fun r => (fst r, snd r)) out.

Definition load_dat (text : string) : result Frame :=
  df <- try_except (read_csv SepSniff text)
                   (fun _ => read_csv SepWhitespace text) ;;
  if raw_empty df then Ok []
  else
    ' (tcol, vcol) <- _find_cols (columns df) ;;
    tc <- getitem df tcol ;;
    t <- to_datetime tc ;;
    vc <- getitem df vcol ;;
    y <- to_numeric vc ;;
    let out := dropna (combine t y) in
    let out := to_kPa out in
    Ok (sort_values out).

(** [PurePath.stem]: the name without its last suffix. *)
Fixpoint rfind_dot (s : string) : option nat :=
  match s with
  | EmptyString => None
  | String c r =>
      match rfind_dot r with
      | Some i => Some (S i)
      | None => if Ascii.eqb c "."%char then Some 0%nat else None
      end
  end.

Definition stem (name : string) : string :=
  match rfind_dot name with
  | Some i =>
      if (0 <? i)%nat && (i <? String.length name - 1)%nat
      then substring 0 i name else name
  | None => name
  end.

(** [rel = path.relative_to(RAW_DIR)] is [parts f]. *)
Definition station_name_from_path (rel : list string) : string :=
  let parts := removelast rel in
  match parts with
  | [] => stem (last rel EmptyString)
  | _ => join "/" parts
  end.

Definition resample_df (df : Frame) (rule : option string) : result Frame :=
  match rule with
  | None => Ok df
  | Some r =>
      if String.eqb r "" || String.eqb (lower r) "none" then Ok df
      else
        match to_offset r with
        | None => Raise (ValueError ("Invalid frequency: " ++ r))
        | Some w => Ok (series_dropna (resample_mean (Zpos w) df))
        end
  end.

(** [records]: the dict from station to the list of its frames, in
    insertion order. *)
Definition Records : Type := list (string * list Frame).

(** [records.setdefault(st, []).append(df)] *)
Fixpoint setdefault_append (st : string) (df : Frame) (records : Records)
  : Records :=
  match records with
  | [] => [(st, [df])]
  | (k, dfs) :: r =>
      if String.eqb k st then (k, dfs ++ [df]) :: r
      else (k, dfs) :: setdefault_append st df r
  end.

Definition warning (f : File) (e : exn) : string :=
  ("[WARN] Failed to parse " ++ path_str f ++ ": " ++ str e)%string.

(** One iteration of the first loop of [main], on the state
    [(records, printed lines)]. *)
Definition load_step (st : Records * list string) (f : File)
  : Records * list string :=
  match load_dat (content f) with
  | Ok df =>
      match df with
      | [] => st
      | _ => (setdefault_append (station_name_from_path (parts f)) df (fst st),
              snd st)
      end
  | Raise e => (fst st, snd st ++ [warning f e])
  end.

Definition load_all (files : list File) : Records * list string :=
  fold_left load_step files ([], []).

(** [merged] at the end of an iteration of the second loop: the frames of
    a station concatenated, without their rows of value NaN, sorted,
    deduplicated and resampled. *)
Definition aggregate (dfs : list Frame) : result Frame :=
  let merged := sort_values (frame_dropna (List.concat dfs)) in
  let merged := groupby_mean merged in
  resample_df merged (RESAMPLE_RULE cfg).

Record Series : Type := {
  station : string;
  x : list string;
  y : list Value;
  unit : string
}.

Record Meta : Type := {
  updated_at : string;
  count_series : nat;
  note : string
}.

Record Payload : Type := {
  meta : Meta;
  series : list Series
}.

Definition render (st : string) (merged : Frame) : Series :=
  {| station := st;
     x := map strftime (map fst merged);
     y := map round_value (map snd merged);
     unit := "kPa" |}.

(** The second loop of [main]. *)
Fixpoint build_series (records : Records) : result (list Series) :=
  match records with
  | [] => Ok []
  | (st, dfs) :: r =>
      merged <- aggregate dfs ;;
      rest <- build_series r ;;
      Ok (render st merged :: rest)
  end.

(** Python's truth value of [RESAMPLE_RULE]. *)
Definition truthy (rule : option string) : bool :=
  match rule with
  | None => false
  | Some r => negb (String.eqb r "")
  end.

(** [str(n)] for a natural number. *)
Definition str_nat (n : nat) : string :=
  NilZero.string_of_uint (Nat.to_uint n).

(** [payload], from the instant [now] of the run and the list [series]. *)
Definition payload_of (now : Timestamp) (series : list Series) : Payload :=
  {| meta := {| updated_at := strftime now;
                count_series := List.length series;
                note := if truthy (RESAMPLE_RULE cfg)
                        then "Resampled for display"
                        else "Raw cadence" |};
     series := series |}.

(** [main], run at the instant [now] on the files [RAW_DIR.rglob("*.dat")]
    yields, in that order.  It returns the printed lines and the payload
    written to [OUT_DIR / "all_series.json"], or the exception that ended
    the run. *)
Definition main (now : Timestamp) (files : list File)
  : list string * result Payload :=
  let '(records, log) := load_all files in
  match build_series records with
  | Raise e => (log, Raise e)
  | Ok series =>
      (log ++ [("[OK] Wrote " ++ OUT_DIR ++ "/all_series.json with "
                ++ str_nat (List.length series) ++ " series.")%string],
       Ok (payload_of now series))
  end.

End Program.

(* ===================================================================== *)
(** ** A reference implementation of the parsing entry points *)
(* ===================================================================== *)

(** [Ref.parsers] implements [Parsers] for plain files: lines end in LF,
    fields hold no quote character, timestamps are written in ISO 8601
    ([YYYY-MM-DD], optionally followed by [T] or a blank, [hh:mm],
    [:ss], a fraction and [Z] or a numeric offset), numbers are decimal
    literals without exponent or the names of the infinities, and a
    resampling rule is a count followed by one of the fixed units of
    pandas.  Outside these forms pandas accepts more than the reference
    does (quoted fields, index columns inferred from a header and a
    sub-header of different widths, other date formats and epoch numbers,
    exponents, sums of fixed units and calendar frequencies); there the
    reference reports a missing value or an error. *)
Module Ref.

Definition LF : ascii := ascii_of_nat 10.
Definition hash : ascii := "#"%char.

(** The lines a text file yields, each with its terminator. *)
Fixpoint readlines (s : list ascii) : list (list ascii) :=
  match s with
  | [] => []
  | c :: r =>
      if Ascii.eqb c LF then [c] :: readlines r
      else match readlines r with
           | [] => [[c]]
           | l :: ls => (c :: l) :: ls
           end
  end.

Definition chomp (l : list ascii) : list ascii :=
  filter (fun c => negb (Ascii.eqb c LF)) l.

(** The strings read as a missing value: the defaults of pandas and the
    [na_values] of the call. *)
Definition na_values : list string :=
  [""; "NA"; "NaN"; "#N/A"; "#N/A N/A"; "#NA"; "-1.#IND"; "-1.#QNAN";
   "-NaN"; "-nan"; "1.#IND"; "1.#QNAN"; "<NA>"; "N/A"; "NULL"; "None";
   "n/a"; "nan"; "null"]%string.

Fixpoint before (d : ascii) (s : list ascii) : list ascii :=
  match s with
  | [] => []
  | c :: r => if Ascii.eqb c d then [] else c :: before d r
  end.

Definition has (d : ascii) (s : list ascii) : bool :=
  existsb (Ascii.eqb d) s.

(** [_check_comments] on one line: a field holding the comment character
    is cut there and ends the line, unless it is a missing-value string. *)
Fixpoint check_comments (line : list (list ascii)) : list (list ascii) :=
  match line with
  | [] => []
  | f :: r =>
      if negb (has hash f) || mem (string_of_list_ascii f) na_values
      then f :: check_comments r
      else match before hash f with
           | [] => []
           | f' => [f']
           end
  end.

(** [_remove_empty_lines]: a line is kept when it has several fields or
    one field that is not blank. *)
Definition nonempty_line (line : list (list ascii)) : bool :=
  match line with
  | [] => false
  | [f] => negb (String.eqb (strip (string_of_list_ascii f)) "")
  | _ => true
  end.

(** [csv.reader] on one line without quote characters. *)
Fixpoint split_on (d : ascii) (s : list ascii) : list (list ascii) :=
  match s with
  | [] => [[]]
  | c :: r =>
      if Ascii.eqb c d then [] :: split_on d r
      else match split_on d r with
           | [] => [[c]]
           | f :: fs => (c :: f) :: fs
           end
  end.

Definition csv_fields (d : ascii) (line : list ascii) : list (list ascii) :=
  match chomp line with
  | [] => []
  | l => split_on d l
  end.

(** [re.compile(r"\s+").split(line.strip())] *)
Fixpoint split_ws (s : list ascii) : list (list ascii) :=
  match s with
  | [] => [[]]
  | c :: r =>
      if isspace c then
        match r with
        | c' :: _ => if isspace c' then split_ws r else [] :: split_ws r
        | [] => [[]; []]
        end
      else match split_ws r with
           | [] => [[c]]
           | f :: fs => (c :: f) :: fs
           end
  end.

Definition ws_fields (line : list ascii) : list (list ascii) :=
  split_ws (list_ascii_of_string (strip (string_of_list_ascii line))).

(** [csv.Sniffer().sniff(line)] on one line without quote characters:
    every 7-bit character of the line is a candidate; a single candidate
    is the delimiter, else the first of the preferred ones that occurs,
    else the candidate occurring most often (the largest on a tie). *)
Definition preferred : list ascii :=
  [","%char; ascii_of_nat 9; ";"%char; " "%char; ":"%char].

Definition count_char (c : ascii) (s : list ascii) : nat :=
  List.length (filter (Ascii.eqb c) s).

Definition candidates (line : list ascii) : list ascii :=
  filter (fun c => (0 <? count_char c line)%nat)
         (map ascii_of_nat (seq 0 127)).

Definition dominant (line cands : list ascii) : option ascii :=
  fold_left (fun best c =>
               match best with
               | None => Some c
               | Some b => if (count_char b line <=? count_char c line)%nat
                           then Some c else best
               end) cands None.

Definition sniff (line : list ascii) : result ascii :=
  let data := chomp line in
  match candidates data with
  | [] => Raise (CsvError "Could not determine delimiter")
  | [c] => Ok c
  | cands =>
      match filter (fun d => has d cands) preferred with
      | d :: _ => Ok d
      | [] => match dominant data cands with
              | Some c => Ok c
              | None => Raise (CsvError "Could not determine delimiter")
              end
      end
  end.

(** A line of fields with the number of the file line it came from. *)
Definition Row : Type := nat * list (list ascii).

Definition number (lines : list (list ascii)) : list (nat * list ascii) :=
  combine (seq 1 (List.length lines)) lines.

(** The rows that survive comment removal and blank-line removal. *)
Definition clean_rows (split : list ascii -> list (list ascii))
           (lines : list (nat * list ascii)) : list Row :=
  filter (fun r => nonempty_line (snd r))
         (map (fun l => (fst l, check_comments (split (snd l)))) lines).

(** The column labels of a header row: an empty label becomes
    [Unnamed: i], a label seen [n > 0] times before becomes [label.n]. *)
Definition unnamed (i : nat) (c : string) : string :=
  if String.eqb c "" then ("Unnamed: " ++ str_nat i)%string else c.

Fixpoint mangle (seen cols : list string) : list string :=
  match cols with
  | [] => []
  | c :: r =>
      let n := List.length (filter (String.eqb c) seen) in
      (if (0 <? n)%nat then (c ++ "." ++ str_nat n)%string else c)
        :: mangle (c :: seen) r
  end.

Definition labels (header : list (list ascii)) : list string :=
  mangle [] (map (fun p => unnamed (fst p) (string_of_list_ascii (snd p)))
                 (combine (seq 0 (List.length header)) header)).

Definition to_cell (f : list ascii) : cell :=
  let s := string_of_list_ascii f in
  if mem s na_values then None else Some s.

(** The frame of a header row and the data rows.  When the first data
    row is longer than the header its leading fields are the index and
    belong to no column; a short row is padded with missing values; a
    row that is too long raises. *)
Definition build_frame (suffix : string) (header : list (list ascii))
           (rows : list Row) : result RawFrame :=
  let ncols := List.length header in
  let k := match rows with
           | [] => 0%nat
           | r :: _ => (List.length (snd r) - ncols)%nat
           end in
  match filter (fun r => (ncols + k <? List.length (snd r))%nat) rows with
  | bad :: _ =>
      Raise (ParserError ("Expected " ++ str_nat (ncols + k)
                          ++ " fields in line " ++ str_nat (fst bad)
                          ++ ", saw " ++ str_nat (List.length (snd bad))
                          ++ suffix))
  | [] =>
      Ok (map (fun p =>
                 (snd p,
                  map (fun r => match nth_error (snd r) (fst p + k) with
                                | Some f => to_cell f
                                | None => None
                                end) rows))
              (combine (seq 0 ncols) (labels header)))
  end.

(** [sep=None]: the first line that is not only a comment is sniffed and
    is the header; at the end of the file the sniffer is given the empty
    string. *)
Fixpoint first_valid_line (lines : list (nat * list ascii))
  : list ascii * list (nat * list ascii) :=
  match lines with
  | [] => ([], [])
  | l :: rest =>
      match check_comments [snd l] with
      | [] => first_valid_line rest
      | x :: _ => (x, rest)
      end
  end.

Definition read_csv_sniff (text : string) : result RawFrame :=
  let '(line, rest) := first_valid_line (number (readlines
                         (list_ascii_of_string text))) in
  bind (sniff line) (fun d =>
  build_frame "" (csv_fields d line) (clean_rows (csv_fields d) rest)).

(** [sep=r"\s+"]: the first row that survives is the header. *)
Definition read_csv_ws (text : string) : result RawFrame :=
  match clean_rows ws_fields
          (number (readlines (list_ascii_of_string text))) with
  | [] => Raise (EmptyDataError "No columns to parse from file")
  | header :: rows =>
      build_frame (". Error could possibly be due to quotes being ignored "
                   ++ "when a multi-char delimiter is used.")
                  (snd header) rows
  end.

Definition read_csv (sep : Sep) (text : string) : result RawFrame :=
  match sep with
  | SepSniff => read_csv_sniff text
  | SepWhitespace => read_csv_ws text
  end.

(** *** Timestamps *)

Definition is_digit (c : ascii) : bool :=
  let n := nat_of_ascii c in ((48 <=? n) && (n <=? 57))%nat.

Definition digit_val (c : ascii) : Z := (Z.of_nat (nat_of_ascii c) - 48)%Z.

Definition number_of (ds : list ascii) : Z :=
  fold_left (fun a c => (10 * a + digit_val c)%Z) ds 0%Z.

(** Exactly [n] digits at the head of [s]. *)
Definition digits (n : nat) (s : list ascii) : option (Z * list ascii) :=
  let ds := firstn n s in
  if (List.length ds =? n)%nat && forallb is_digit ds
  then Some (number_of ds, skipn n s) else None.

Definition expect (c : ascii) (s : list ascii) : option (list ascii) :=
  match s with
  | x :: r => if Ascii.eqb x c then Some r else None
  | [] => None
  end.

Fixpoint span_digits (s : list ascii) : list ascii * list ascii :=
  match s with
  | c :: r => if is_digit c
              then let '(ds, rest) := span_digits r in (c :: ds, rest)
              else ([], s)
  | [] => ([], [])
  end.

Definition obind {A B : Type} (m : option A) (k : A -> option B) : option B :=
  match m with
  | Some a => k a
  | None => None
  end.

Notation "x <-? m ;; k" := (obind m (fun x => k))
  (at level 61, m at next level, right associativity).
Notation "' p <-? m ;; k" := (obind m (fun p => k))
  (at level 61, p pattern, m at next level, right associativity).

Definition is_leap (y : Z) : bool :=
  ((y mod 4 =? 0) && (negb (y mod 100 =? 0) || (y mod 400 =? 0)))%Z.

Definition days_in_month (y m : Z) : Z :=
  if (m =? 2)%Z then (if is_leap y then 29 else 28)%Z
  else if ((m =? 4) || (m =? 6) || (m =? 9) || (m =? 11))%Z then 30%Z
  else 31%Z.

(** The day number of a proleptic Gregorian date. *)
Definition days_from_civil (y m d : Z) : Z :=
  let y := (if (m <=? 2)%Z then y - 1 else y)%Z in
  let era := (y / 400)%Z in
  let yoe := (y - era * 400)%Z in
  let mp := (if (2 <? m)%Z then m - 3 else m + 9)%Z in
  let doy := ((153 * mp + 2) / 5 + d - 1)%Z in
  let doe := (yoe * 365 + yoe / 4 - yoe / 100 + doy)%Z in
  (era * 146097 + doe - 719468)%Z.

(** The offset at the end of a timestamp, in seconds east of UTC; no
    offset and [Z] are UTC ([utc=True]). *)
Definition parse_offset (s : list ascii) : option Z :=
  match s with
  | [] => Some 0%Z
  | c :: r =>
      if Ascii.eqb c "Z"%char then
        match r with [] => Some 0%Z | _ => None end
      else if Ascii.eqb c "+"%char || Ascii.eqb c "-"%char then
        ' (h, r1) <-? digits 2 r ;;
        let r2 := match expect ":"%char r1 with Some r' => r' | None => r1 end in
        ' (m, r3) <-? digits 2 r2 ;;
        match r3 with
        | [] => if ((h <? 24) && (m <? 60))%Z
                then Some ((if Ascii.eqb c "-"%char then -1 else 1)
                           * (h * 3600 + m * 60))%Z
                else None
        | _ => None
        end
      else None
  end.

(** The fraction of a second after the point, in nanoseconds. *)
Definition parse_fraction (s : list ascii) : option (Z * list ascii) :=
  match expect "."%char s with
  | None => Some (0%Z, s)
  | Some r =>
      let '(ds, rest) := span_digits r in
      let n := List.length ds in
      if (0 <? n)%nat && (n <=? 9)%nat
      then Some ((number_of ds * 10 ^ Z.of_nat (9 - n))%Z, rest)
      else None
  end.

(** The seconds and the fraction after [hh:mm], when present. *)
Definition parse_seconds (s : list ascii) : option (Z * Z * list ascii) :=
  match expect ":"%char s with
  | None => Some (0%Z, 0%Z, s)
  | Some ra =>
      ' (sec, rb) <-? digits 2 ra ;;
      ' (frac, rc) <-? parse_fraction rb ;;
      Some (sec, frac, rc)
  end.

(** The time of day after the date, in nanoseconds, and the offset. *)
Definition parse_time (s : list ascii) : option (Z * Z) :=
  ' (h, r1) <-? digits 2 s ;;
  r2 <-? expect ":"%char r1 ;;
  ' (mi, r3) <-? digits 2 r2 ;;
  ' (sec, frac, r4) <-? parse_seconds r3 ;;
  off <-? parse_offset r4 ;;
  if ((h <? 24) && (mi <? 60) && (sec <? 60))%Z
  then Some (((h * 3600 + mi * 60 + sec) * 1000000000 + frac)%Z, off)
  else None.

Definition parse_datetime (s : list ascii) : option Timestamp :=
  ' (y, r1) <-? digits 4 s ;;
  r2 <-? expect "-"%char r1 ;;
  ' (m, r3) <-? digits 2 r2 ;;
  r4 <-? expect "-"%char r3 ;;
  ' (d, r5) <-? digits 2 r4 ;;
  ' (tod, off) <-?
      match r5 with
      | [] => Some (0%Z, 0%Z)
      | c :: r => if Ascii.eqb c "T"%char || Ascii.eqb c " "%char
                  then parse_time r else None
      end ;;
  if ((1 <=? m) && (m <=? 12) && (1 <=? d) && (d <=? days_in_month y m))%Z
  then
    let t := ((days_from_civil y m d * 86400 - off) * 1000000000 + tod)%Z in
    (* the range of datetime64[ns]; the least 64-bit value is NaT *)
    if ((- 2 ^ 63 <? t) && (t <? 2 ^ 63))%Z then Some t else None
  else None.

Definition to_datetime (col : list cell) : result (list (option Timestamp)) :=
  Ok (map (fun c => match c with
                    | Some s => parse_datetime (list_ascii_of_string (strip s))
                    | None => None
                    end) col).

(** *** Numbers *)

Definition parse_sign (s : list ascii) : bool * list ascii :=
  match s with
  | c :: r => if Ascii.eqb c "-"%char then (true, r)
              else if Ascii.eqb c "+"%char then (false, r)
              else (false, s)
  | [] => (false, s)
  end.

Definition parse_decimal (s : list ascii) : option Q :=
  let '(neg, r) := parse_sign s in
  let '(ip, r1) := span_digits r in
  let '(fp, r2) :=
    match expect "."%char r1 with
    | Some ra => span_digits ra
    | None => ([], r1)
    end in
  match r2 with
  | [] =>
      if (0 <? List.length ip + List.length fp)%nat then
        let n := number_of (ip ++ fp) in
        Some (Qred (Qmake (if neg then - n else n)
                          (Z.to_pos (10 ^ Z.of_nat (List.length fp)))))
      else None
  | _ => None
  end.

(** The names of the infinities, read without regard to case. *)
Definition parse_inf (s : string) : option Value :=
  let l := lower s in
  if String.eqb l "inf" || String.eqb l "+inf"
     || String.eqb l "infinity" || String.eqb l "+infinity"
  then Some PosInf
  else if String.eqb l "-inf" || String.eqb l "-infinity"
  then Some NegInf
  else None.

(** One field as a number: a decimal literal, blanks around it aside, or
    the name of an infinity; what is neither is NaN ([errors="coerce"]). *)
Definition parse_value (s : string) : Value :=
  match parse_decimal (list_ascii_of_string (strip s)) with
  | Some q => Num q
  | None => match parse_inf s with
            | Some v => v
            | None => NaN
            end
  end.

Definition to_numeric (col : list cell) : result (list Value) :=
  Ok (map (fun c => match c with
                    | Some s => parse_value s
                    | None => NaN
                    end) col).

(** *** Resampling rules *)

Definition unit_ns (u : string) : option Z :=
  if String.eqb u "D" then Some 86400000000000%Z
  else if String.eqb u "h" then Some 3600000000000%Z
  else if String.eqb u "min" then Some 60000000000%Z
  else if String.eqb u "s" then Some 1000000000%Z
  else if String.eqb u "ms" then Some 1000000%Z
  else if String.eqb u "us" then Some 1000%Z
  else if String.eqb u "ns" then Some 1%Z
  else None.

Definition to_offset (rule : string) : option positive :=
  let '(ds, u) := span_digits (list_ascii_of_string rule) in
  let n := match ds with [] => 1%Z | _ => number_of ds end in
  u_ns <-? unit_ns (string_of_list_ascii u) ;;
  match (n * u_ns)%Z with
  | Zpos w => Some w
  | _ => None
  end.

#[export] Instance parsers : Parsers := {|
  Pd.read_csv := read_csv;
  Pd.to_datetime := to_datetime;
  Pd.to_numeric := to_numeric;
  Pd.to_offset := to_offset
|}.

End Ref.

(** The file of the scenario of the specification. *)
Definition nl : string := String Ref.LF EmptyString.

Definition scenario_text : string :=
  ("# comment" ++ nl ++
   "time,pressure" ++ nl ++
   "2024-01-01T00:00:00Z,10.0" ++ nl ++
   "2024-01-01T00:00:00Z,20.0" ++ nl ++
   "2024-01-01T00:15:00Z,30.0" ++ nl)%string.

Definition scenario_file : File :=
  {| parts := ["MJ03F"; "PARO1"; "a.dat"]%string; content := scenario_text |}.

(** The rows [load_dat] returns for the scenario, in kPa. *)
Definition scenario_rows : Frame :=
  [(1704067200000000000%Z, Num (10 * PSI_TO_KPA));
   (1704067200000000000%Z, Num (20 * PSI_TO_KPA));
   (1704068100000000000%Z, Num (30 * PSI_TO_KPA))].

(** A file without any line. *)
Definition empty_file : File :=
  {| parts := ["x.dat"]%string; content := EmptyString |}.

(** Two rows within the same second. *)
Definition subsecond_file : File :=
  {| parts := ["s.dat"]%string;
     content := ("time,pressure" ++ nl ++
                 "2024-01-01T00:00:00.250Z,1.0" ++ nl ++
                 "2024-01-01T00:00:00.750Z,2.0" ++ nl)%string |}.

(** One row, three minutes after midnight. *)
Definition three_past_file : File :=
  {| parts := ["t.dat"]%string;
     content := ("time,pressure" ++ nl ++
                 "2024-01-01T00:03:00Z,10.0" ++ nl)%string |}.

(** Two rows and no header row. *)
Definition headerless_file : File :=
  {| parts := ["h.dat"]%string;
     content := ("2024-01-01T00:00:00Z,10.0" ++ nl ++
                 "2024-01-01T00:15:00Z,20.0" ++ nl)%string |}.

(** Two rows five minutes apart, the first of value +inf, the second of
    value -inf. *)
Definition infinities_file : File :=
  {| parts := ["i.dat"]%string;
     content := ("time,pressure" ++ nl ++
                 "2024-01-01T00:00:00Z,inf" ++ nl ++
                 "2024-01-01T00:05:00Z,-inf" ++ nl)%string |}.

(** One row whose timestamp carries no offset. *)
Definition naive_file : File :=
  {| parts := ["n.dat"]%string;
     content := ("time,pressure" ++ nl ++
                 "2024-01-01 00:00:00,10.0" ++ nl)%string |}.

(** The settings of the source with another resampling rule. *)
Definition with_rule (rule : option string) : Config :=
  {| ASSUME_UNITS := "psi"; LOCAL_TZ := "UTC"; RESAMPLE_RULE := rule |}.

(* ===================================================================== *)
(** ** Vocabulary of the statements *)
(* ===================================================================== *)

(** The two roles [_find_cols] assigns a column to. *)
Inductive Role : Type := TimeRole | ValueRole.

Definition keys_of (r : Role) : list string :=
  match r with
  | TimeRole => time_keys
  | ValueRole => val_keys
  end.

Definition pick {A : Type} (r : Role) (p : A * A) : A :=
  match r with
  | TimeRole => fst p
  | ValueRole => snd p
  end.

(** No label of the header is one of [keys] once lowered and stripped. *)
Definition unrecognized (keys columns : list string) : Prop :=
  forall k, In k keys -> ~ In k (lc_of columns).

(** Strictly increasing instants. *)
Definition increasing (ts : list Timestamp) : Prop := StronglySorted Z.lt ts.

(** What [load_dat] does once the two columns [tc] and [vc] are chosen. *)
Definition load_columns {P : Parsers} (cfg : Config) (tc vc : list cell)
  : result Frame :=
  bind (to_datetime tc) (fun t =>
  bind (to_numeric vc) (fun y =>
  Ok (sort_values (to_kPa cfg (dropna (combine t y)))))).

(** The anchor of the bins of a frame: midnight of the day of its
    earliest instant. *)
Definition origin_of (df : Frame) : Timestamp :=
  match map fst df with
  | [] => 0%Z
  | t0 :: ts => normalize (earliest t0 ts)
  end.

(** Every station of the records has at least one row, and no row of
    the records has the value NaN. *)
Definition populated (records : Records) : Prop :=
  Forall (fun rec => List.concat (snd rec) <> [] /\
                     Forall (fun r => snd r <> NaN) (List.concat (snd rec)))
         records.

(** A finite number. *)
Definition finite (v : Value) : Prop := exists q, v = Num q.

(** Equal values, finite numbers being compared as rationals. *)
Definition veq (a b : Value) : Prop :=
  match a, b with
  | Num p, Num q => (p == q)%Q
  | PosInf, PosInf | NegInf, NegInf | NaN, NaN => True
  | _, _ => False
  end.

(** The whole second an instant falls in. *)
Definition seconds_of (t : Timestamp) : Z := (t / 1000000000)%Z.

(** The instants [datetime64[ns]] can hold. *)
Definition in_range (t : Timestamp) : Prop := (- 2 ^ 63 < t < 2 ^ 63)%Z.

(** [c in s] for a character. *)
Fixpoint has_char (c : ascii) (s : string) : bool :=
  match s with
  | EmptyString => false
  | String x r => Ascii.eqb x c || has_char c r
  end.

(** A path component: it holds no separator. *)
Definition slash_free (s : string) : Prop := has_char "/"%char s = false.

(** The stations of the files that yield at least one row, in file
    order. *)
Definition contributing {P : Parsers} (cfg : Config) (files : list File)
  : list string :=
  flat_map (fun f => match load_dat cfg (content f) with
                     | Ok (_ :: _) => [station_name_from_path (parts f)]
                     | _ => []
                     end) files.

(** The elements of a list in the order of their first occurrence. *)
Definition add_new (acc : list string) (s : string) : list string :=
  if mem s acc then acc else acc ++ [s].

Definition first_seen (l : list string) : list string :=
  fold_left add_new l [].

(** The non-empty frames of the files of station [st], in file order. *)
Definition frames_for {P : Parsers} (cfg : Config) (st : string)
           (files : list File) : list Frame :=
  flat_map (fun f => match load_dat cfg (content f) with
                     | Ok (r :: df) =>
                         if String.eqb (station_name_from_path (parts f)) st
                         then [r :: df] else []
                     | _ => []
                     end) files.

(** The warnings of the files whose parsing raises, in file order. *)
Definition warnings {P : Parsers} (cfg : Config) (files : list File)
  : list string :=
  flat_map (fun f => match load_dat cfg (content f) with
                     | Raise e => [warning f e]
                     | Ok _ => []
                     end) files.

(** The line [main] prints after it has written [n] series. *)
Definition ok_line (n : nat) : string :=
  ("[OK] Wrote " ++ OUT_DIR ++ "/all_series.json with "
   ++ str_nat n ++ " series.")%string.

(** Every value of a frame multiplied by [PSI_TO_KPA]. *)
Definition scale (rows : Frame) : Frame :=
  map (fun r => (fst r, vmul (snd r) (Num PSI_TO_KPA))) rows.

(** The settings with another input unit. *)
Definition with_units (cfg : Config) (u : string) : Config :=
  {| ASSUME_UNITS := u; LOCAL_TZ := LOCAL_TZ cfg;
     RESAMPLE_RULE := RESAMPLE_RULE cfg |}.

(** A rule that [resample_df] passes through. *)
Definition disabled (rule : option string) : bool :=
  match rule with
  | None => true
  | Some r => String.eqb r "" || String.eqb (lower r) "none"
  end.

(* ===================================================================== *)
(** ** Column inference *)
(* ===================================================================== *)

Section FindCols.

Lemma mem_In (k : string) (l : list string) : mem k l = true <-> In k l.
Proof.
  induction l as [|x l IH]; simpl.
  - split; [discriminate | tauto].
  - rewrite orb_true_iff, IH. destruct (String.eqb_spec k x); intuition congruence.
Qed.

Lemma mem_false (k : string) (l : list string) : ~ In k l -> mem k l = false.
Proof.
  intros H. destruct (mem k l) eqn:E; [|reflexivity].
  apply mem_In in E. contradiction.
Qed.

(** [l.index(k)] is the first position holding [k]. *)
Lemma index_first (k : string) (l : list string) :
  In k l ->
  exists i, index k l = Some i /\ nth_error l i = Some k /\
            forall j, (j < i)%nat -> nth_error l j <> Some k.
Proof.
  induction l as [|x l IH]; simpl; [tauto|].
  intros Hin. destruct (String.eqb_spec k x) as [->|Hne].
  - exists 0%nat. repeat split; auto. intros j Hj. lia.
  - destruct Hin as [Heq|Hin]; [congruence|].
    destruct (IH Hin) as (i & Hi & Hn & Hfirst).
    exists (S i). rewrite Hi. repeat split; auto.
    intros [|j] Hj; simpl.
    + congruence.
    + apply Hfirst. lia.
Qed.

(** The loop over the keys stops at the earliest key present. *)
Lemma first_key_earliest (keys pre post lc : list string) (k : string) :
  keys = pre ++ k :: post ->
  (forall k', In k' pre -> ~ In k' lc) ->
  In k lc ->
  first_key keys lc = index k lc.
Proof.
  intros -> Hpre Hin. induction pre as [|p pre IH]; simpl.
  - rewrite (proj2 (mem_In k lc) Hin). reflexivity.
  - rewrite mem_false by (apply Hpre; simpl; auto).
    apply IH. intros k' Hk'. apply Hpre. simpl; auto.
Qed.

Lemma first_key_none (keys lc : list string) :
  (forall k, In k keys -> ~ In k lc) -> first_key keys lc = None.
Proof.
  induction keys as [|k keys IH]; simpl; intros H; [reflexivity|].
  rewrite mem_false by (apply H; auto). apply IH. intros; apply H; auto.
Qed.

Lemma lc_of_nth (columns : list string) (i : nat) (k : string) :
  nth_error (lc_of columns) i = Some k ->
  exists label, nth_error columns i = Some label /\ strip (lower label) = k.
Proof.
  unfold lc_of. rewrite nth_error_map.
  destruct (nth_error columns i) as [label|]; simpl; [|discriminate].
  intros [= <-]. eauto.
Qed.

(** Both indices are in range as soon as there is a column. *)
Lemma find_idx_in_range (columns : list string) :
  columns <> [] ->
  (forall i, first_key time_keys (lc_of columns) = Some i ->
             (i < List.length columns)%nat) ->
  (forall i, first_key val_keys (lc_of columns) = Some i ->
             (i < List.length columns)%nat) ->
  (fst (find_idx columns) < List.length columns)%nat /\
  (snd (find_idx columns) < List.length columns)%nat.
Proof.
  intros Hne Ht Hv. unfold find_idx.
  assert (0 < List.length columns)%nat
    by (destruct columns; simpl; [congruence | lia]).
  split; cbn [fst snd].
  - destruct (first_key time_keys (lc_of columns)); auto.
  - destruct (first_key val_keys (lc_of columns)); auto.
    destruct (1 <? List.length columns)%nat eqn:E.
    + apply Nat.ltb_lt in E. rewrite andb_true_r.
      destruct (_ =? _)%nat; assumption.
    + rewrite andb_false_r. assumption.
Qed.

Lemma first_key_in_range (keys lc : list string) (i : nat) :
  first_key keys lc = Some i -> (i < List.length lc)%nat.
Proof.
  induction keys as [|k keys IH]; simpl; [discriminate|].
  destruct (mem k lc) eqn:E; [|exact IH].
  apply mem_In in E. destruct (index_first k lc E) as (i' & Hi & Hn & _).
  rewrite Hi. intros [= <-]. apply nth_error_Some. congruence.
Qed.

Lemma find_cols_ok (columns : list string) :
  columns <> [] ->
  exists tcol vcol,
    nth_error columns (fst (find_idx columns)) = Some tcol /\
    nth_error columns (snd (find_idx columns)) = Some vcol /\
    _find_cols columns = Ok (tcol, vcol).
Proof.
  intros Hne.
  assert (Hlen : List.length (lc_of columns) = List.length columns)
    by (unfold lc_of; apply length_map).
  destruct (find_idx_in_range Hne) as [Ht Hv].
  - intros i Hi. rewrite <- Hlen. eapply first_key_in_range; eauto.
  - intros i Hi. rewrite <- Hlen. eapply first_key_in_range; eauto.
  - unfold _find_cols. destruct (find_idx columns) as [ti vi]; simpl in *.
    apply nth_error_Some in Ht, Hv.
    destruct (nth_error columns ti) as [tcol|]; [|congruence].
    destruct (nth_error columns vi) as [vcol|]; [|congruence].
    eauto.
Qed.

End FindCols.

(** C6: when the header has a label that, lowered and stripped, is a key
    of the time list (respectively of the value list), the column chosen
    for that role is the first column carrying the earliest such key of
    the priority list, wherever it stands in the header. *)
Theorem find_cols_recognized_header
        (r : Role) (columns pre post : list string) (k : string) :
  keys_of r = pre ++ k :: post ->
  (forall k', In k' pre -> ~ In k' (lc_of columns)) ->
  In k (lc_of columns) ->
  exists (i : nat) (label other : string),
    pick r (find_idx columns) = i /\
    nth_error columns i = Some label /\
    strip (lower label) = k /\
    (forall j, (j < i)%nat -> nth_error (lc_of columns) j <> Some k) /\
    _find_cols columns = Ok (match r with
                             | TimeRole => (label, other)
                             | ValueRole => (other, label)
                             end).
Proof.
  intros Hkeys Hpre Hin.
  destruct (index_first k (lc_of columns) Hin) as (i & Hi & Hn & Hfirst).
  destruct (lc_of_nth columns i Hn) as (label & Hlabel & Hk).
  assert (Hne : columns <> []) by (intros ->; destruct i; discriminate).
  destruct (find_cols_ok Hne) as (tcol & vcol & Ht & Hv & Hok).
  assert (Hfk : first_key (keys_of r) (lc_of columns) = Some i)
    by (rewrite <- Hi; eapply first_key_earliest; eauto).
  destruct r; cbn [keys_of pick] in *.
  - assert (Hidx : fst (find_idx columns) = i)
      by (unfold find_idx; cbn [fst snd]; rewrite Hfk; reflexivity).
    exists i, label, vcol. rewrite Hidx in Ht.
    repeat split; auto. congruence.
  - assert (Hidx : snd (find_idx columns) = i)
      by (unfold find_idx; cbn [fst snd]; rewrite Hfk; reflexivity).
    exists i, label, tcol. rewrite Hidx in Hv.
    repeat split; auto. congruence.
Qed.

Lemma find_cols_recognized_header_witness :
  exists (i : nat) (label other : string),
    pick TimeRole (find_idx [" Foo"; "PSI "; "Timestamp"; "DATE"]%string) = i /\
    nth_error [" Foo"; "PSI "; "Timestamp"; "DATE"]%string i = Some label /\
    strip (lower label) = "timestamp"%string /\
    (forall j, (j < i)%nat ->
       nth_error (lc_of [" Foo"; "PSI "; "Timestamp"; "DATE"]%string) j
       <> Some "timestamp"%string) /\
    _find_cols [" Foo"; "PSI "; "Timestamp"; "DATE"]%string
    = Ok (label, other).
Proof.
  apply (@find_cols_recognized_header TimeRole
           [" Foo"; "PSI "; "Timestamp"; "DATE"]%string
           ["time"%string] ["date"; "datetime"]%string "timestamp"%string).
  - reflexivity.
  - intros k' [<-|[]]. vm_compute. intuition discriminate.
  - vm_compute. auto.
Defined.

Section FindColsDefault.

Context {P : Parsers}.
Variable cfg : Config.

Local Open Scope py_scope.

Lemma find_idx_default (columns : list string) :
  unrecognized time_keys columns ->
  unrecognized val_keys columns ->
  find_idx columns
  = (0%nat, if (1 <? List.length columns)%nat then 1%nat else 0%nat).
Proof.
  intros Ht Hv. unfold find_idx.
  rewrite (first_key_none _ _ Ht), (first_key_none _ _ Hv).
  destruct (1 <? List.length columns)%nat; reflexivity.
Qed.

Lemma find_idx_value_default (columns : list string) :
  unrecognized val_keys columns ->
  snd (find_idx columns)
  = if (1 <? List.length columns)%nat then 1%nat else 0%nat.
Proof.
  intros Hv. unfold find_idx. cbn [snd].
  rewrite (first_key_none _ _ Hv).
  destruct (1 <? List.length columns)%nat.
  - destruct (_ =? _)%nat; reflexivity.
  - rewrite andb_false_r. reflexivity.
Qed.

Lemma load_dat_columns (text : string) (df : RawFrame)
      (tcol vcol : string) (tc vc : list cell) :
  try_except (read_csv SepSniff text) (fun _ => read_csv SepWhitespace text)
  = Ok df ->
  raw_empty df = false ->
  _find_cols (columns df) = Ok (tcol, vcol) ->
  getitem df tcol = Ok tc ->
  getitem df vcol = Ok vc ->
  load_dat cfg text = load_columns cfg tc vc.
Proof.
  intros Hread Hne Hcols Ht Hv. unfold load_dat, load_columns.
  rewrite Hread. cbn [bind]. rewrite Hne, Hcols. cbn [bind].
  rewrite Ht. cbn [bind]. destruct (to_datetime tc); cbn [bind]; [|reflexivity].
  rewrite Hv. reflexivity.
Qed.

End FindColsDefault.

(** C7: when no label of the header is a time key or a value key, the
    first column is the time column and the second column (the first
    when it is the only one) is the value column, and [load_dat] parses
    exactly these columns; and whenever the value column is defaulted in
    a header of several columns it is the second column, also when the
    time column is that same column. *)
Theorem find_cols_default (P : Parsers) (cfg : Config)
        (columns : list string) :
  unrecognized val_keys columns ->
  (unrecognized time_keys columns ->
   find_idx columns
   = (0%nat, if (1 <? List.length columns)%nat then 1%nat else 0%nat) /\
   match columns with
   | [] => True
   | [c0] => _find_cols columns = Ok (c0, c0)
   | c0 :: c1 :: _ => _find_cols columns = Ok (c0, c1)
   end) /\
  ((1 < List.length columns)%nat -> snd (find_idx columns) = 1%nat) /\
  (forall (text : string) (df : RawFrame),
     try_except (read_csv SepSniff text)
                (fun _ => read_csv SepWhitespace text) = Ok df ->
     raw_empty df = false ->
     Pd.columns df = columns ->
     unrecognized time_keys columns ->
     match df with
     | [] => True
     | [(_, c0)] => load_dat cfg text = load_columns cfg c0 c0
     | (l0, c0) :: (l1, c1) :: _ =>
         l0 <> l1 -> load_dat cfg text = load_columns cfg c0 c1
     end).
Proof.
  intros Hv.
  assert (Hcols : unrecognized time_keys columns ->
                  match columns with
                  | [] => True
                  | [c0] => _find_cols columns = Ok (c0, c0)
                  | c0 :: c1 :: _ => _find_cols columns = Ok (c0, c1)
                  end).
  { intros Ht. unfold _find_cols. rewrite (find_idx_default Ht Hv).
    destruct columns as [|c0 [|c1 rest]]; auto. }
  split; [|split].
  - intros Ht. split; [apply find_idx_default; assumption | exact (Hcols Ht)].
  - intros Hlen. rewrite (find_idx_value_default Hv).
    apply Nat.ltb_lt in Hlen. rewrite Hlen. reflexivity.
  - intros text df Hread Hne Hdf Ht. specialize (Hcols Ht). subst columns.
    destruct df as [|[l0 c0] [|[l1 c1] rest]]; auto.
    + apply (@load_dat_columns P cfg text _ l0 l0 c0 c0 Hread Hne Hcols);
        cbn [getitem]; rewrite String.eqb_refl; reflexivity.
    + intros Hneq.
      apply (@load_dat_columns P cfg text _ l0 l1 c0 c1 Hread Hne Hcols);
        cbn [getitem].
      * rewrite String.eqb_refl; reflexivity.
      * destruct (String.eqb_spec l0 l1); [contradiction|].
        rewrite String.eqb_refl. reflexivity.
Qed.

Lemma find_cols_default_witness :
  find_idx ["a"; "b"; "c"]%string = (0%nat, 1%nat) /\
  _find_cols ["a"; "b"; "c"]%string = Ok ("a"%string, "b"%string).
Proof.
  assert (Hv : unrecognized val_keys ["a"; "b"; "c"]%string)
    by (intros k Hk; vm_compute in Hk |- *; intuition (subst; discriminate)).
  assert (Ht : unrecognized time_keys ["a"; "b"; "c"]%string)
    by (intros k Hk; vm_compute in Hk |- *; intuition (subst; discriminate)).
  destruct (@find_cols_default Ref.parsers default_config
              ["a"; "b"; "c"]%string Hv) as (H & _ & _).
  exact (H Ht).
Defined.

(* ===================================================================== *)
(** ** The loop over the files *)
(* ===================================================================== *)

Section Loading.

Context {P : Parsers}.
Variable cfg : Config.

(** The records do not depend on the lines printed so far, and the lines
    printed so far are kept. *)
Lemma load_fold_log (files : list File) (records : Records)
      (log : list string) :
  fold_left (load_step cfg) files (records, log)
  = (fst (fold_left (load_step cfg) files (records, [])),
     log ++ snd (fold_left (load_step cfg) files (records, []))).
Proof.
  revert records log. induction files as [|f files IH]; intros records log.
  - simpl. rewrite List.app_nil_r. reflexivity.
  - simpl. unfold load_step at 2 4 6. cbn [fst snd].
    destruct (load_dat cfg (content f)) as [[|r df]|e].
    + apply IH.
    + apply IH.
    + rewrite IH. rewrite (IH records ([] ++ [warning f e])).
      cbn [fst snd]. rewrite <- List.app_assoc. reflexivity.
Qed.

Lemma load_all_app (fs1 fs2 : list File) :
  load_all cfg (fs1 ++ fs2)
  = fold_left (load_step cfg) fs2 (load_all cfg fs1).
Proof. unfold load_all. apply fold_left_app. Qed.

(** A file whose parsing raises leaves the records as they are and
    prints one warning. *)
Lemma load_all_raise (fs1 fs2 : list File) (f : File) (e : exn) :
  load_dat cfg (content f) = Raise e ->
  fst (load_all cfg (fs1 ++ f :: fs2)) = fst (load_all cfg (fs1 ++ fs2)) /\
  exists log1 log2,
    snd (load_all cfg (fs1 ++ fs2)) = log1 ++ log2 /\
    snd (load_all cfg (fs1 ++ f :: fs2)) = log1 ++ warning f e :: log2.
Proof.
  intros Hf. rewrite !load_all_app. simpl.
  destruct (load_all cfg fs1) as [records log] eqn:E1.
  assert (Hstep : load_step cfg (records, log) f
                  = (records, log ++ [warning f e]))
    by (unfold load_step; rewrite Hf; reflexivity).
  rewrite Hstep.
  rewrite (load_fold_log fs2 records (log ++ [warning f e])).
  rewrite (load_fold_log fs2 records log). cbn [fst snd].
  split; [reflexivity|].
  exists log, (snd (fold_left (load_step cfg) fs2 (records, []))).
  split; [reflexivity|]. rewrite <- List.app_assoc. reflexivity.
Qed.

(** A file without a valid row leaves the whole state as it is. *)
Lemma load_all_empty (fs1 fs2 : list File) (f : File) :
  load_dat cfg (content f) = Ok [] ->
  load_all cfg (fs1 ++ f :: fs2) = load_all cfg (fs1 ++ fs2).
Proof.
  intros Hf. rewrite !load_all_app. simpl.
  assert (Hstep : load_step cfg (load_all cfg fs1) f = load_all cfg fs1)
    by (unfold load_step; rewrite Hf; reflexivity).
  rewrite Hstep. reflexivity.
Qed.

(** The result of [main] is a function of the records. *)
Lemma main_result (now : Timestamp) (files : list File) :
  snd (main cfg now files)
  = bind (build_series cfg (fst (load_all cfg files)))
         (fun series => Ok (payload_of cfg now series)).
Proof.
  unfold main. destruct (load_all cfg files) as [records log]. cbn [fst].
  destruct (build_series cfg records); reflexivity.
Qed.

Lemma main_log (now : Timestamp) (files : list File) :
  exists tail, fst (main cfg now files) = snd (load_all cfg files) ++ tail.
Proof.
  unfold main. destruct (load_all cfg files) as [records log]. cbn [snd].
  destruct (build_series cfg records).
  - eexists. reflexivity.
  - exists []. rewrite List.app_nil_r. reflexivity.
Qed.

(** Without an invalid rule, the second loop raises nothing. *)
Lemma resample_df_ok (df : Frame) (rule : option string) :
  (forall r, rule = Some r -> disabled rule = true \/ to_offset r <> None) ->
  exists out, resample_df df rule = Ok out.
Proof.
  intros H. unfold resample_df. destruct rule as [r|]; [|eauto].
  destruct (H r eq_refl) as [Hd|Hs].
  - simpl in Hd. rewrite Hd. eauto.
  - destruct (_ || _); [eauto|].
    destruct (to_offset r); [eauto | congruence].
Qed.

Lemma build_series_ok (records : Records) :
  (forall r, RESAMPLE_RULE cfg = Some r ->
             disabled (RESAMPLE_RULE cfg) = true \/ to_offset r <> None) ->
  exists series, build_series cfg records = Ok series.
Proof.
  intros H. induction records as [|[st dfs] records [series IH]]; simpl.
  - eauto.
  - unfold aggregate.
    destruct (resample_df_ok
                (groupby_mean (sort_values (frame_dropna (List.concat dfs)))) H)
      as [out ->].
    cbn [bind]. rewrite IH. cbn [bind]. eauto.
Qed.

End Loading.

(** C8: when parsing a file raises, a warning with the path of the file
    and the message of the exception is printed, the file adds nothing to
    the records, and the run returns what it returns without that file;
    in particular it writes its payload whenever the resampling rule is
    one [resample_df] accepts. *)
Theorem parse_failure_is_skipped (P : Parsers) (cfg : Config)
        (now : Timestamp) (fs1 fs2 : list File) (f : File) (e : exn) :
  load_dat cfg (content f) = Raise e ->
  In ("[WARN] Failed to parse " ++ path_str f ++ ": " ++ str e)%string
     (fst (main cfg now (fs1 ++ f :: fs2))) /\
  fst (load_all cfg (fs1 ++ f :: fs2)) = fst (load_all cfg (fs1 ++ fs2)) /\
  snd (main cfg now (fs1 ++ f :: fs2)) = snd (main cfg now (fs1 ++ fs2)) /\
  ((forall r, RESAMPLE_RULE cfg = Some r ->
              disabled (RESAMPLE_RULE cfg) = true \/ to_offset r <> None) ->
   exists payload, snd (main cfg now (fs1 ++ f :: fs2)) = Ok payload).
Proof.
  intros Hf.
  destruct (load_all_raise cfg fs1 fs2 f Hf) as (Hrec & log1 & log2 & _ & Hlog).
  repeat split.
  - destruct (main_log cfg now (fs1 ++ f :: fs2)) as [tail ->].
    rewrite Hlog. apply in_or_app. left. apply in_or_app. right.
    left. reflexivity.
  - exact Hrec.
  - rewrite !main_result, Hrec. reflexivity.
  - intros Hrule. rewrite main_result.
    destruct (build_series_ok cfg (fst (load_all cfg (fs1 ++ f :: fs2))) Hrule)
      as [series ->].
    cbn [bind]. eauto.
Qed.

Lemma parse_failure_is_skipped_witness :
  load_dat (P := Ref.parsers) default_config (content empty_file)
  = Raise (EmptyDataError "No columns to parse from file") /\
  In ("[WARN] Failed to parse data/raw/x.dat: No columns to parse from file")%string
     (fst (main (P := Ref.parsers) default_config 0%Z
                ([scenario_file] ++ empty_file :: []))) /\
  snd (main (P := Ref.parsers) default_config 0%Z
            ([scenario_file] ++ empty_file :: []))
  = snd (main (P := Ref.parsers) default_config 0%Z ([scenario_file] ++ [])).
Proof.
  assert (H : load_dat (P := Ref.parsers) default_config (content empty_file)
              = Raise (EmptyDataError "No columns to parse from file"))
    by (vm_compute; reflexivity).
  split; [exact H|].
  destruct (@parse_failure_is_skipped Ref.parsers default_config 0%Z
              [scenario_file] [] empty_file _ H) as (Hw & _ & Hm & _).
  split; [exact Hw | exact Hm].
Defined.

(* ===================================================================== *)
(** ** Sorting and grouping *)
(* ===================================================================== *)

Section Grouping.

Lemma insert_key_In (k x : Z) (l : list Z) :
  In x (insert_key k l) <-> x = k \/ In x l.
Proof.
  induction l as [|h l IH]; simpl.
  - intuition.
  - destruct (Z.ltb_spec k h); [simpl; intuition|].
    destruct (Z.eqb_spec k h); simpl; [subst; intuition|].
    rewrite IH. intuition.
Qed.

Lemma insert_key_increasing (k : Z) (l : list Z) :
  increasing l -> increasing (insert_key k l).
Proof.
  unfold increasing. induction l as [|h l IH]; simpl; intros Hs.
  - repeat constructor.
  - inversion Hs as [|? ? Hl Hh]; subst.
    destruct (Z.ltb_spec k h).
    + constructor; [assumption|]. constructor; [assumption|].
      eapply Forall_impl; [|exact Hh]. intros; simpl in *; lia.
    + destruct (Z.eqb_spec k h); [assumption|].
      constructor; [auto|]. apply Forall_forall. intros x Hx.
      apply insert_key_In in Hx. destruct Hx as [->|Hx]; [lia|].
      rewrite Forall_forall in Hh. auto.
Qed.

Lemma sort_uniq_In (x : Z) (l : list Z) : In x (sort_uniq l) <-> In x l.
Proof.
  induction l as [|h l IH]; simpl; [tauto|].
  rewrite insert_key_In, IH. intuition.
Qed.

Lemma sort_uniq_increasing (l : list Z) : increasing (sort_uniq l).
Proof.
  induction l as [|h l IH]; simpl.
  - constructor.
  - apply insert_key_increasing. exact IH.
Qed.

Lemma insert_row_In (r x : Timestamp * Value) (l : Frame) :
  In x (insert_row r l) <-> x = r \/ In x l.
Proof.
  induction l as [|h l IH]; simpl.
  - intuition.
  - destruct (fst r <=? fst h)%Z; simpl; [intuition|]. rewrite IH. intuition.
Qed.

Lemma sort_values_In (x : Timestamp * Value) (df : Frame) :
  In x (sort_values df) <-> In x df.
Proof.
  induction df as [|h l IH]; simpl; [tauto|].
  rewrite insert_row_In, IH. intuition.
Qed.

(** The sort is stable: the rows of one instant keep their order. *)
Lemma values_at_insert_row (k : Timestamp) (r : Timestamp * Value)
      (l : Frame) :
  values_at k (insert_row r l)
  = if (fst r =? k)%Z then snd r :: values_at k l else values_at k l.
Proof.
  induction l as [|h l IH]; cbn [insert_row].
  - unfold values_at. cbn [filter]. destruct (fst r =? k)%Z; reflexivity.
  - destruct (Z.leb_spec (fst r) (fst h)).
    + unfold values_at. cbn [filter]. destruct (fst r =? k)%Z; reflexivity.
    + unfold values_at in *. cbn [filter].
      destruct (Z.eqb_spec (fst h) k) as [Hh|Hh]; cbn [map]; rewrite IH.
      * destruct (Z.eqb_spec (fst r) k); [lia | reflexivity].
      * reflexivity.
Qed.

Lemma values_at_sort_values (k : Timestamp) (df : Frame) :
  values_at k (sort_values df) = values_at k df.
Proof.
  induction df as [|h l IH]; simpl; [reflexivity|].
  rewrite values_at_insert_row, IH. unfold values_at. simpl.
  destruct (fst h =? k)%Z; reflexivity.
Qed.

Lemma values_at_nonempty (k : Timestamp) (df : Frame) :
  In k (map fst df) -> values_at k df <> [].
Proof.
  unfold values_at. induction df as [|h l IH]; simpl; [tauto|].
  intros [<-|Hin].
  - rewrite Z.eqb_refl. simpl. discriminate.
  - destruct (fst h =? k)%Z; simpl; [discriminate | auto].
Qed.

(** A mean that is not NaN is the mean of some value. *)
Lemma mean_notna (vs : list Value) : mean vs <> NaN -> vs <> [].
Proof. destruct vs; [intros H _; apply H; reflexivity | discriminate]. Qed.

Lemma filter_finite (vs : list Value) :
  Forall finite vs -> filter (fun v => negb (isna v)) vs = vs.
Proof.
  induction 1 as [|v vs [q ->] _ IH]; simpl; [reflexivity|].
  rewrite IH. reflexivity.
Qed.

Lemma total_finite (vs : list Value) (a : Q) :
  Forall finite vs -> finite (fold_left vadd vs (Num a)).
Proof.
  intros H. revert a. induction H as [|v vs [q ->] _ IH]; intros a; simpl.
  - exists a. reflexivity.
  - apply IH.
Qed.

(** Finite values have a finite mean. *)
Lemma mean_finite (vs : list Value) :
  vs <> [] -> Forall finite vs -> finite (mean vs).
Proof.
  intros Hne Hf. unfold mean. rewrite (filter_finite Hf).
  destruct vs as [|v vs]; [congruence|].
  destruct (total_finite 0 Hf) as [q Hq]. unfold total. rewrite Hq.
  eexists. reflexivity.
Qed.

Lemma finite_notna (v : Value) : finite v -> v <> NaN.
Proof. intros [q ->]. discriminate. Qed.

Lemma mean_pair (v1 v2 : Q) :
  exists m, mean [Num v1; Num v2] = Num m /\ (m == (v1 + v2) / 2)%Q.
Proof.
  eexists. split; [reflexivity|]. simpl. field.
Qed.

Lemma mean_triple (v1 v2 v3 : Q) :
  exists m, mean [Num v1; Num v2; Num v3] = Num m /\
            (m == (v1 + v2 + v3) / 3)%Q.
Proof.
  eexists. split; [reflexivity|]. simpl. field.
Qed.

(** The mean of two values that are not NaN is half their sum, also when
    one of them is an infinity. *)
Lemma mean_pair_value (v1 v2 : Value) :
  v1 <> NaN -> v2 <> NaN ->
  veq (mean [v1; v2]) (vdiv_count (vadd v1 v2) 2).
Proof.
  intros H1 H2. destruct v1, v2; try congruence; cbn; try exact I.
  field.
Qed.

Lemma groupby_mean_keys (df : Frame) :
  map fst (groupby_mean df) = sort_uniq (map fst df).
Proof.
  unfold groupby_mean. rewrite map_map. cbn [fst]. apply map_id.
Qed.

Lemma groupby_mean_increasing (df : Frame) :
  increasing (map fst (groupby_mean df)).
Proof. rewrite groupby_mean_keys. apply sort_uniq_increasing. Qed.

(** One row per instant of the frame, with the mean of the values of that
    instant. *)
Lemma groupby_mean_In (df : Frame) (t : Timestamp) (m : Value) :
  In (t, m) (groupby_mean df)
  <-> In t (map fst df) /\ m = mean (values_at t df).
Proof.
  unfold groupby_mean. rewrite in_map_iff. split.
  - intros (k & [= <- <-] & Hk). apply (proj1 (sort_uniq_In _ _)) in Hk. auto.
  - intros [Hin ->]. exists t. split; [reflexivity|].
    apply sort_uniq_In. exact Hin.
Qed.

Lemma groupby_mean_nonempty (df : Frame) : df <> [] -> groupby_mean df <> [].
Proof.
  destruct df as [|[t v] df]; [congruence|]. intros _ Hnil.
  assert (H : In (t, mean (values_at t ((t, v) :: df)))
                 (groupby_mean ((t, v) :: df)))
    by (apply groupby_mean_In; split; [left|]; reflexivity).
  rewrite Hnil in H. exact H.
Qed.

Lemma values_at_In (k : Timestamp) (df : Frame) (v : Value) :
  In v (values_at k df) -> In (k, v) df.
Proof.
  unfold values_at. intros H. apply in_map_iff in H.
  destruct H as ([t x] & <- & Hin). apply filter_In in Hin.
  destruct Hin as [Hin Ht]. cbn [fst snd] in *.
  apply Z.eqb_eq in Ht. subst t. exact Hin.
Qed.

(** Finite values are deduplicated into finite values. *)
Lemma groupby_mean_finite (df : Frame) :
  Forall (fun r => finite (snd r)) df ->
  Forall (fun r => finite (snd r)) (groupby_mean df).
Proof.
  intros Hf. apply Forall_forall. intros [t m] Hin.
  apply groupby_mean_In in Hin. destruct Hin as [Ht ->]. cbn [snd].
  apply mean_finite; [apply values_at_nonempty; exact Ht|].
  apply Forall_forall. intros v Hv. apply values_at_In in Hv.
  rewrite Forall_forall in Hf. exact (Hf _ Hv).
Qed.

Lemma sort_values_nonempty (df : Frame) : df <> [] -> sort_values df <> [].
Proof.
  destruct df as [|r df]; [congruence|]. intros _ Hnil.
  assert (H : In r (sort_values (r :: df)))
    by (apply sort_values_In; left; reflexivity).
  rewrite Hnil in H. exact H.
Qed.

End Grouping.

(* ===================================================================== *)
(** ** Resampling *)
(* ===================================================================== *)

Section Resampling.

Local Open Scope Z_scope.

Variable w : Z.
Hypothesis w_pos : 0 < w.

Lemma bin_start_eq (o t : Z) : bin_start o w t = t - (t - o) mod w.
Proof.
  unfold bin_start. pose proof (Z.mod_pos_bound (t - o) w w_pos).
  destruct (Z.ltb_spec 0 ((t - o) mod w)); lia.
Qed.

Lemma bin_stop_eq (o t : Z) : bin_stop o w t = bin_start o w t + w.
Proof.
  unfold bin_stop, bin_start. pose proof (Z.mod_pos_bound (t - o) w w_pos).
  destruct (Z.ltb_spec 0 ((t - o) mod w)); lia.
Qed.

Lemma bin_start_div (o t : Z) : bin_start o w t = o + w * ((t - o) / w).
Proof.
  rewrite bin_start_eq. pose proof (Z.div_mod (t - o) w). lia.
Qed.

Lemma bin_start_bounds (o t : Z) :
  bin_start o w t <= t < bin_start o w t + w.
Proof.
  rewrite bin_start_eq. pose proof (Z.mod_pos_bound (t - o) w w_pos). lia.
Qed.

Lemma bin_start_aligned (o t : Z) : (bin_start o w t - o) mod w = 0.
Proof.
  rewrite bin_start_div.
  replace (o + w * ((t - o) / w) - o) with (((t - o) / w) * w) by lia.
  apply Z.mod_mul. lia.
Qed.

Lemma earliest_spec (ts : list Z) (t0 : Z) :
  In (earliest t0 ts) (t0 :: ts) /\
  forall t, In t (t0 :: ts) -> earliest t0 ts <= t.
Proof.
  unfold earliest. revert t0. induction ts as [|h ts IH]; intros t0; simpl.
  - split; [auto|]. intros t [<-|[]]. lia.
  - destruct (IH (Z.min t0 h)) as [Hin Hle]. split.
    + destruct Hin as [Hin|Hin]; [|auto].
      rewrite <- Hin. destruct (Z.min_spec t0 h) as [[_ ->]|[_ ->]]; auto.
    + intros t Ht.
      assert (Hm : fold_left Z.min ts (Z.min t0 h) <= Z.min t0 h)
        by (apply Hle; left; reflexivity).
      destruct Ht as [<-|[<-|Ht]]; [lia | lia |].
      apply Hle. right. exact Ht.
Qed.

Lemma latest_spec (ts : list Z) (t0 : Z) :
  In (latest t0 ts) (t0 :: ts) /\
  forall t, In t (t0 :: ts) -> t <= latest t0 ts.
Proof.
  unfold latest. revert t0. induction ts as [|h ts IH]; intros t0; simpl.
  - split; [auto|]. intros t [<-|[]]. lia.
  - destruct (IH (Z.max t0 h)) as [Hin Hle]. split.
    + destruct Hin as [Hin|Hin]; [|auto].
      rewrite <- Hin. destruct (Z.max_spec t0 h) as [[_ ->]|[_ ->]]; auto.
    + intros t Ht.
      assert (Hm : Z.max t0 h <= fold_left Z.max ts (Z.max t0 h))
        by (apply Hle; left; reflexivity).
      destruct Ht as [<-|[<-|Ht]]; [lia | lia |].
      apply Hle. right. exact Ht.
Qed.

(** The edges are the starts of the bins from the bin of the earliest
    instant to the bin of the latest one. *)
Lemma bin_edges_In (t0 : Z) (ts : list Z) (e : Z) :
  let o := normalize (earliest t0 ts) in
  In e (bin_edges w (t0 :: ts))
  <-> exists q, (earliest t0 ts - o) / w <= q <= (latest t0 ts - o) / w /\
                e = o + w * q.
Proof.
  intros o. unfold bin_edges. fold o.
  rewrite bin_stop_eq, !bin_start_div.
  set (qf := (earliest t0 ts - o) / w). set (ql := (latest t0 ts - o) / w).
  replace ((o + w * ql + w - (o + w * qf)) / w) with (ql - qf + 1).
  2:{ replace (o + w * ql + w - (o + w * qf)) with ((ql - qf + 1) * w) by lia.
      rewrite Z.div_mul; lia. }
  rewrite in_map_iff. split.
  - intros (i & <- & Hi). apply in_seq in Hi. exists (qf + Z.of_nat i).
    split; lia.
  - intros (q & Hq & ->). exists (Z.to_nat (q - qf)). split.
    + rewrite Z2Nat.id by lia. lia.
    + apply in_seq. lia.
Qed.

(** The bin of every instant of the series is among the edges. *)
Lemma bin_edges_cover (t0 : Z) (ts : list Z) (t : Z) :
  In t (t0 :: ts) ->
  In (bin_start (normalize (earliest t0 ts)) w t) (bin_edges w (t0 :: ts)).
Proof.
  intros Hin. apply bin_edges_In. cbv zeta.
  set (o := normalize (earliest t0 ts)).
  exists ((t - o) / w). split; [|apply bin_start_div].
  destruct (earliest_spec ts t0) as [_ Hlo].
  destruct (latest_spec ts t0) as [_ Hhi].
  specialize (Hlo t Hin). specialize (Hhi t Hin).
  split; apply Z.div_le_mono; lia.
Qed.

Lemma map_seq_increasing (f : nat -> Z) (a n : nat) :
  (forall i j, (i < j)%nat -> f i < f j) ->
  increasing (map f (seq a n)).
Proof.
  intros Hf. unfold increasing. revert a.
  induction n as [|n IH]; intros a; simpl; constructor.
  - apply IH.
  - apply Forall_forall. intros x Hx. apply in_map_iff in Hx.
    destruct Hx as (j & <- & Hj). apply in_seq in Hj. apply Hf. lia.
Qed.

Lemma bin_edges_increasing (times : list Z) : increasing (bin_edges w times).
Proof.
  destruct times as [|t0 ts]; [constructor|].
  unfold bin_edges. apply map_seq_increasing. intros i j Hij. nia.
Qed.

Lemma bin_edges_aligned (t0 : Z) (ts : list Z) (e : Z) :
  In e (bin_edges w (t0 :: ts)) ->
  (e - normalize (earliest t0 ts)) mod w = 0.
Proof.
  intros He. apply bin_edges_In in He. destruct He as (q & _ & ->).
  replace (normalize (earliest t0 ts) + w * q - normalize (earliest t0 ts))
    with (q * w) by lia.
  apply Z.mod_mul. lia.
Qed.

Lemma series_dropna_In (s : Frame) (b : Z) (v : Value) :
  In (b, v) (series_dropna s) <-> In (b, v) s /\ v <> NaN.
Proof.
  unfold series_dropna. rewrite filter_In. cbn [snd].
  destruct v; cbn [isna negb]; intuition congruence.
Qed.

Lemma series_dropna_times (s : Frame) (b : Z) :
  In b (map fst (series_dropna s)) -> In b (map fst s).
Proof.
  intros H. apply in_map_iff in H. destruct H as (r & <- & Hr).
  apply filter_In in Hr. apply in_map. tauto.
Qed.

Lemma series_dropna_increasing (s : Frame) :
  increasing (map fst s) -> increasing (map fst (series_dropna s)).
Proof.
  unfold increasing. induction s as [|[t x] s IH]; simpl; intros Hs.
  - constructor.
  - inversion Hs as [|? ? Hl Hh]; subst.
    destruct (negb (isna x)); [|auto]. simpl. constructor; [auto|].
    apply Forall_forall. intros b Hb. rewrite Forall_forall in Hh.
    apply Hh. apply series_dropna_times. exact Hb.
Qed.

Lemma resample_mean_times (df : Frame) :
  map fst (resample_mean w df) = bin_edges w (map fst df).
Proof.
  unfold resample_mean. rewrite map_map. simpl. apply map_id.
Qed.

(** One point per bin, in ascending order of the bins. *)
Lemma resample_increasing (df : Frame) :
  increasing (map fst (series_dropna (resample_mean w df))).
Proof.
  apply series_dropna_increasing. rewrite resample_mean_times.
  apply bin_edges_increasing.
Qed.

(** The points kept are the bins whose mean is not NaN, with that mean. *)
Lemma resample_In (df : Frame) (b : Z) (v : Value) :
  In (b, v) (series_dropna (resample_mean w df))
  <-> In b (bin_edges w (map fst df)) /\
      v = mean (values_in b w df) /\ v <> NaN.
Proof.
  rewrite series_dropna_In. unfold resample_mean. rewrite in_map_iff. split.
  - intros [(e & [= <- <-] & He) Hv]. auto.
  - intros (He & -> & Hv). split; [|exact Hv]. exists b. auto.
Qed.

Lemma values_in_nonempty (df : Frame) (b t : Z) (v : Value) :
  In (t, v) df -> b <= t < b + w -> values_in b w df <> [].
Proof.
  intros Hin Hb. unfold values_in.
  assert (H : In (t, v) (filter (fun r => (b <=? fst r) && (fst r <? b + w)) df)).
  { apply filter_In. split; [exact Hin|]. simpl.
    apply andb_true_iff. split; [apply Z.leb_le | apply Z.ltb_lt]; lia. }
  destruct (filter _ df); [destruct H | discriminate].
Qed.

Lemma values_in_In (df : Frame) (b : Z) (v : Value) :
  In v (values_in b w df) -> exists t, In (t, v) df /\ b <= t < b + w.
Proof.
  unfold values_in. intros H. apply in_map_iff in H.
  destruct H as ([t x] & <- & Hin). apply filter_In in Hin.
  destruct Hin as [Hin Ht]. cbn [fst snd] in *.
  apply andb_true_iff in Ht. destruct Ht as [H1 H2].
  apply Z.leb_le in H1. apply Z.ltb_lt in H2. exists t. auto.
Qed.

(** The bin of every row is among the bins, and it is kept when its mean
    is not NaN. *)
Lemma resample_cover (df : Frame) (t : Z) (x : Value) :
  In (t, x) df ->
  In (bin_start (origin_of df) w t) (bin_edges w (map fst df)) /\
  (mean (values_in (bin_start (origin_of df) w t) w df) <> NaN ->
   In (bin_start (origin_of df) w t,
       mean (values_in (bin_start (origin_of df) w t) w df))
      (series_dropna (resample_mean w df))).
Proof.
  intros Hin.
  assert (Ht : In t (map fst df)) by (apply in_map_iff; exists (t, x); auto).
  assert (He : In (bin_start (origin_of df) w t) (bin_edges w (map fst df))).
  { unfold origin_of. destruct (map fst df) as [|t0 ts] eqn:E; [destruct Ht|].
    apply bin_edges_cover. exact Ht. }
  split; [exact He|]. intros Hm. apply resample_In. auto.
Qed.

(** A bin of finite values has a finite mean. *)
Lemma values_in_finite (df : Frame) (b : Z) :
  Forall (fun r => finite (snd r)) df -> Forall finite (values_in b w df).
Proof.
  intros Hf. apply Forall_forall. intros v Hv.
  destruct (values_in_In _ _ _ Hv) as (t & Hin & _).
  rewrite Forall_forall in Hf. exact (Hf _ Hin).
Qed.

(** Every row of a frame of finite values falls in a bin that is kept. *)
Lemma resample_cover_finite (df : Frame) (t : Z) (x : Value) :
  Forall (fun r => finite (snd r)) df ->
  In (t, x) df ->
  exists m, In (bin_start (origin_of df) w t, Num m)
               (series_dropna (resample_mean w df)).
Proof.
  intros Hf Hin. destruct (resample_cover df t x Hin) as [_ Hc].
  assert (Hm : finite (mean (values_in (bin_start (origin_of df) w t) w df))).
  { apply mean_finite; [|apply values_in_finite; exact Hf].
    eapply values_in_nonempty; [exact Hin | apply bin_start_bounds]. }
  specialize (Hc (finite_notna Hm)). destruct Hm as [m Hm].
  exists m. rewrite <- Hm. exact Hc.
Qed.

Lemma resample_nonempty (df : Frame) :
  df <> [] -> Forall (fun r => finite (snd r)) df ->
  series_dropna (resample_mean w df) <> [].
Proof.
  destruct df as [|[t x] df]; [congruence|]. intros _ Hf Hnil.
  destruct (@resample_cover_finite ((t, x) :: df) t x Hf (or_introl eq_refl))
    as [m Hm].
  rewrite Hnil in Hm. exact Hm.
Qed.

Lemma normalize_aligned (t : Z) : normalize t mod day_ns = 0.
Proof.
  unfold normalize.
  replace (t - t mod day_ns) with ((t / day_ns) * day_ns)
    by (pose proof (Z.div_mod t day_ns); unfold day_ns in *; lia).
  apply Z.mod_mul. unfold day_ns; lia.
Qed.

(** The edges are multiples of every common divisor of the day and of
    the width. *)
Lemma bin_edges_multiple (g : Z) (t0 : Z) (ts : list Z) (e : Z) :
  0 < g -> (g | day_ns) -> (g | w) ->
  In e (bin_edges w (t0 :: ts)) ->
  e mod g = 0.
Proof.
  intros Hg [c Hc] [c' Hc'] He.
  apply bin_edges_In in He. destruct He as (q & _ & ->).
  pose proof (normalize_aligned (earliest t0 ts)) as Hn.
  apply Z.mod_divide in Hn; [|unfold day_ns; lia].
  destruct Hn as [d Hd]. rewrite Hd, Hc. rewrite Hc' at 1.
  replace (d * (c * g) + c' * g * q) with ((d * c + c' * q) * g) by lia.
  apply Z.mod_mul. lia.
Qed.

(** A width that divides the day makes the bins aligned on the epoch. *)
Lemma bin_edges_epoch (t0 : Z) (ts : list Z) (e : Z) :
  (w | day_ns) ->
  In e (bin_edges w (t0 :: ts)) ->
  e mod w = 0.
Proof.
  intros Hdiv. apply bin_edges_multiple; [exact w_pos | exact Hdiv|].
  exists 1. lia.
Qed.

End Resampling.

(* ===================================================================== *)
(** ** The loop over the stations *)
(* ===================================================================== *)

Section Aggregation.

Context {P : Parsers}.
Variable cfg : Config.

Lemma resample_df_disabled (df : Frame) (rule : option string) :
  disabled rule = true -> resample_df df rule = Ok df.
Proof.
  unfold resample_df, disabled. destruct rule as [r|]; [|reflexivity].
  intros ->. reflexivity.
Qed.

Lemma resample_df_enabled (df : Frame) (r : string) (w : positive) :
  disabled (Some r) = false ->
  to_offset r = Some w ->
  resample_df df (Some r) = Ok (series_dropna (resample_mean (Zpos w) df)).
Proof.
  unfold resample_df, disabled. intros -> ->. reflexivity.
Qed.

(** What [resample_df] returns is the frame itself or its bins. *)
Lemma resample_df_cases (df out : Frame) (rule : option string) :
  resample_df df rule = Ok out ->
  out = df \/
  exists w, out = series_dropna (resample_mean (Zpos w) df).
Proof.
  unfold resample_df. destruct rule as [r|]; [|intros [= <-]; auto].
  destruct (_ || _); [intros [= <-]; auto|].
  destruct (to_offset r) as [w|]; [|discriminate].
  intros [= <-]. eauto.
Qed.

Lemma aggregate_increasing (dfs : list Frame) (merged : Frame) :
  aggregate cfg dfs = Ok merged -> increasing (map fst merged).
Proof.
  unfold aggregate. intros H.
  destruct (resample_df_cases _ _ H) as [->|[w ->]].
  - apply groupby_mean_increasing.
  - apply resample_increasing. lia.
Qed.

(** A frame without NaN loses nothing by [dropna]. *)
Lemma frame_dropna_notna (df : Frame) :
  Forall (fun r => snd r <> NaN) df -> frame_dropna df = df.
Proof.
  unfold frame_dropna. induction 1 as [|[t v] df Hv _ IH]; simpl;
    [reflexivity|].
  rewrite IH. destruct v; cbn [snd isna negb] in *; congruence.
Qed.

Lemma frame_dropna_In (df : Frame) (r : Timestamp * Value) :
  In r (frame_dropna df) <-> In r df /\ snd r <> NaN.
Proof.
  unfold frame_dropna. rewrite filter_In.
  destruct (snd r); cbn [isna negb]; intuition congruence.
Qed.

Lemma frame_dropna_length (df : Frame) :
  (List.length (frame_dropna df) <= List.length df)%nat.
Proof. apply filter_length_le. Qed.

Lemma sort_values_finite (df : Frame) :
  Forall (fun r => finite (snd r)) df ->
  Forall (fun r => finite (snd r)) (sort_values df).
Proof.
  rewrite !Forall_forall. intros H r Hr. apply H.
  apply (proj1 (sort_values_In r df)). exact Hr.
Qed.

(** The deduplicated rows of a station that has a row are not empty. *)
Lemma dedup_nonempty (dfs : list Frame) :
  List.concat dfs <> [] ->
  Forall (fun r => snd r <> NaN) (List.concat dfs) ->
  groupby_mean (sort_values (frame_dropna (List.concat dfs))) <> [].
Proof.
  intros Hne Hna. rewrite (frame_dropna_notna Hna).
  apply groupby_mean_nonempty, sort_values_nonempty, Hne.
Qed.

Lemma dedup_finite (dfs : list Frame) :
  Forall (fun r => finite (snd r)) (List.concat dfs) ->
  Forall (fun r => finite (snd r))
         (groupby_mean (sort_values (frame_dropna (List.concat dfs)))).
Proof.
  intros Hf. apply groupby_mean_finite, sort_values_finite.
  rewrite Forall_forall in *. intros r Hr. apply Hf.
  apply (proj1 (frame_dropna_In _ r)) in Hr. tauto.
Qed.

(** Without resampling the series of a station that has a row is not
    empty. *)
Lemma aggregate_nonempty_disabled (dfs : list Frame) (merged : Frame) :
  disabled (RESAMPLE_RULE cfg) = true ->
  List.concat dfs <> [] ->
  Forall (fun r => snd r <> NaN) (List.concat dfs) ->
  aggregate cfg dfs = Ok merged -> merged <> [].
Proof.
  unfold aggregate. intros Hdis Hne Hna.
  rewrite (resample_df_disabled _ _ Hdis). intros [= <-].
  apply dedup_nonempty; assumption.
Qed.

(** The series of a station whose values are finite is not empty. *)
Lemma aggregate_nonempty_finite (dfs : list Frame) (merged : Frame) :
  List.concat dfs <> [] ->
  Forall (fun r => finite (snd r)) (List.concat dfs) ->
  aggregate cfg dfs = Ok merged -> merged <> [].
Proof.
  unfold aggregate. intros Hne Hf H.
  assert (Hna : Forall (fun r => snd r <> NaN) (List.concat dfs))
    by (eapply Forall_impl; [|exact Hf]; intros r; apply finite_notna).
  pose proof (dedup_nonempty dfs Hne Hna) as Hd.
  destruct (resample_df_cases _ _ H) as [->|[w ->]]; [exact Hd|].
  apply resample_nonempty; [lia | exact Hd | apply dedup_finite; exact Hf].
Qed.

(** Under resampling the series of a station is not empty exactly when
    some bin has a mean that is not NaN. *)
Lemma aggregate_nonempty_enabled (dfs : list Frame) (merged : Frame)
      (r : string) (w : positive) :
  RESAMPLE_RULE cfg = Some r ->
  disabled (Some r) = false ->
  to_offset r = Some w ->
  aggregate cfg dfs = Ok merged ->
  let dedup := groupby_mean (sort_values (frame_dropna (List.concat dfs))) in
  merged <> [] <->
  exists b, In b (bin_edges (Zpos w) (map fst dedup)) /\
            mean (values_in b (Zpos w) dedup) <> NaN.
Proof.
  intros Hrule Hen Hw. unfold aggregate. rewrite Hrule.
  rewrite (@resample_df_enabled _ r w Hen Hw). intros [= <-]. cbv zeta.
  set (dedup := groupby_mean _). split.
  - intros Hne.
    destruct (series_dropna (resample_mean (Zpos w) dedup))
      as [|[b v] rest] eqn:E; [congruence|].
    assert (Hin : In (b, v) (series_dropna (resample_mean (Zpos w) dedup)))
      by (rewrite E; left; reflexivity).
    apply (proj1 (@resample_In (Zpos w) dedup b v)) in Hin.
    destruct Hin as (He & -> & Hv). eauto.
  - intros (b & He & Hm) Hnil.
    assert (Hin : In (b, mean (values_in b (Zpos w) dedup))
                     (series_dropna (resample_mean (Zpos w) dedup)))
      by (apply resample_In; auto).
    rewrite Hnil in Hin. exact Hin.
Qed.

Lemma build_series_spec (records : Records) (series : list Series) :
  build_series cfg records = Ok series ->
  Forall2 (fun rec s => exists merged,
               aggregate cfg (snd rec) = Ok merged /\
               s = render (fst rec) merged)
          records series.
Proof.
  revert series. induction records as [|[st dfs] records IH]; simpl.
  - intros series [= <-]. constructor.
  - intros series. destruct (aggregate cfg dfs) as [merged|] eqn:Ha;
      cbn [bind]; [|discriminate].
    destruct (build_series cfg records) as [rest|]; cbn [bind]; [|discriminate].
    intros [= <-]. constructor; [eauto | auto].
Qed.

Lemma dropna_notna (rows : list (option Timestamp * Value)) :
  Forall (fun r => snd r <> NaN) (dropna rows).
Proof.
  induction rows as [|[[t|] v] rows IH]; simpl; [constructor| |exact IH].
  destruct v; cbn [isna]; try exact IH; constructor; auto; discriminate.
Qed.

Lemma to_kPa_notna (out : Frame) :
  Forall (fun r => snd r <> NaN) out ->
  Forall (fun r => snd r <> NaN) (to_kPa cfg out).
Proof.
  intros H. unfold to_kPa.
  destruct (String.eqb _ _); apply Forall_map; cbn [snd];
    [|exact H].
  eapply Forall_impl; [|exact H]. intros [t v] Hv. cbn [snd] in *.
  destruct v; try congruence; vm_compute; discriminate.
Qed.

(** No row that [load_dat] returns has the value NaN. *)
Lemma load_dat_notna (text : string) (out : Frame) :
  load_dat cfg text = Ok out -> Forall (fun r => snd r <> NaN) out.
Proof.
  unfold load_dat.
  destruct (try_except _ _) as [df|]; cbn [bind]; [|discriminate].
  destruct (raw_empty df); [intros [= <-]; constructor|].
  destruct (_find_cols _) as [[tcol vcol]|]; cbn [bind]; [|discriminate].
  destruct (getitem df tcol) as [tc|]; cbn [bind]; [|discriminate].
  destruct (to_datetime tc) as [t|]; cbn [bind]; [|discriminate].
  destruct (getitem df vcol) as [vc|]; cbn [bind]; [|discriminate].
  destruct (to_numeric vc) as [y|]; cbn [bind]; [|discriminate].
  intros [= <-].
  pose proof (to_kPa_notna (dropna_notna (combine t y))) as H.
  rewrite Forall_forall in *. intros r Hr. apply H.
  apply (proj1 (sort_values_In r _)). exact Hr.
Qed.

Lemma setdefault_append_populated (st : string) (df : Frame)
      (records : Records) :
  df <> [] -> Forall (fun r => snd r <> NaN) df ->
  populated records -> populated (setdefault_append st df records).
Proof.
  intros Hdf Hna. unfold populated.
  induction records as [|[k dfs] records IH]; simpl; intros Hp.
  - constructor; [|constructor]. simpl. rewrite List.app_nil_r. auto.
  - inversion Hp as [|? ? [Hk Hkna] Hr]; subst. destruct (String.eqb k st).
    + constructor; [|exact Hr]. simpl in *. rewrite concat_app. simpl.
      rewrite List.app_nil_r. split.
      * intros Happ. apply app_eq_nil in Happ. tauto.
      * apply Forall_app. auto.
    + constructor; auto.
Qed.

Lemma load_step_populated (st : Records * list string) (f : File) :
  populated (fst st) -> populated (fst (load_step cfg st f)).
Proof.
  intros Hp. unfold load_step.
  destruct (load_dat cfg (content f)) as [[|r df]|e] eqn:E; cbn [fst]; auto.
  apply setdefault_append_populated;
    [discriminate | exact (load_dat_notna _ E) | exact Hp].
Qed.

Lemma load_all_populated (files : list File) :
  populated (fst (load_all cfg files)).
Proof.
  unfold load_all.
  assert (H : forall st, populated (fst st) ->
                         populated (fst (fold_left (load_step cfg) files st))).
  { induction files as [|f files IH]; simpl; intros st Hst; [exact Hst|].
    apply IH, load_step_populated, Hst. }
  apply H. constructor.
Qed.

Lemma main_series (now : Timestamp) (files : list File) (p : Payload) :
  snd (main cfg now files) = Ok p ->
  build_series cfg (fst (load_all cfg files)) = Ok (series p) /\
  p = payload_of cfg now (series p).
Proof.
  rewrite main_result.
  destruct (build_series cfg (fst (load_all cfg files))) as [s|];
    cbn [bind]; [|discriminate].
  intros [= <-]. auto.
Qed.

Lemma render_nonempty (st : string) (merged : Frame) :
  x (render st merged) <> [] <-> merged <> [].
Proof. destruct merged; simpl; split; congruence. Qed.

(** Every series has as many values as instants. *)
Lemma build_series_lengths (records : Records) (series : list Series) :
  build_series cfg records = Ok series ->
  Forall (fun s => List.length (y s) = List.length (x s)) series.
Proof.
  intros H. pose proof (build_series_spec records H) as Hall.
  clear H. induction Hall as [|rec s records series (merged & _ & ->) _ IH];
    constructor; [|exact IH].
  simpl. rewrite !length_map. reflexivity.
Qed.

(** What decides whether the series of a station is empty. *)
Lemma build_series_nonempty (records : Records) (series : list Series) :
  populated records ->
  build_series cfg records = Ok series ->
  Forall2 (fun rec s =>
             (disabled (RESAMPLE_RULE cfg) = true -> x s <> []) /\
             (Forall (fun r => finite (snd r)) (List.concat (snd rec)) ->
              x s <> []) /\
             (forall r w,
                 RESAMPLE_RULE cfg = Some r ->
                 disabled (Some r) = false ->
                 to_offset r = Some w ->
                 let dedup := groupby_mean (sort_values (frame_dropna
                                (List.concat (snd rec)))) in
                 x s <> [] <->
                 exists b, In b (bin_edges (Zpos w) (map fst dedup)) /\
                           mean (values_in b (Zpos w) dedup) <> NaN))
          records series.
Proof.
  intros Hp H. pose proof (build_series_spec records H) as Hall. clear H.
  unfold populated in Hp.
  induction Hall as [|rec s records series (merged & Ha & ->) _ IH];
    [constructor|].
  inversion Hp as [|? ? [Hne Hna] Hrest]; subst.
  constructor; [|exact (IH Hrest)].
  split; [|split].
  - intros Hdis. apply render_nonempty.
    eapply aggregate_nonempty_disabled; eauto.
  - intros Hf. apply render_nonempty.
    eapply aggregate_nonempty_finite; eauto.
  - intros r w Hrule Hen Hw. cbv zeta. rewrite render_nonempty.
    exact (aggregate_nonempty_enabled (snd rec) Hrule Hen Hw Ha).
Qed.

Lemma build_series_stations (records : Records) (series : list Series) :
  build_series cfg records = Ok series ->
  map station series = map fst records.
Proof.
  revert series. induction records as [|[st dfs] records IH]; simpl.
  - intros series [= <-]. reflexivity.
  - intros series. destruct (aggregate cfg dfs) as [merged|]; cbn [bind];
      [|discriminate].
    destruct (build_series cfg records) as [rest|]; cbn [bind]; [|discriminate].
    intros [= <-]. simpl. f_equal. auto.
Qed.

End Aggregation.

Section QuarterHour.

Local Open Scope Z_scope.

(** Three points at 00:00, 00:05 and 00:10 of a day fall into the one
    15-minute bin that starts at 00:00. *)
Lemma quarter_hour_edges (d : Z) :
  d mod day_ns = 0 ->
  bin_edges 900000000000 [d; d + 300000000000; d + 600000000000] = [d].
Proof.
  intros Hd. unfold bin_edges.
  assert (He : earliest d [d + 300000000000; d + 600000000000] = d)
    by (unfold earliest; simpl; lia).
  assert (Hl : latest d [d + 300000000000; d + 600000000000]
               = d + 600000000000)
    by (unfold latest; simpl; lia).
  assert (Hn : normalize d = d) by (unfold normalize; lia).
  rewrite He, Hl, Hn.
  rewrite bin_stop_eq, !bin_start_eq by lia.
  replace (d - d) with 0 by lia.
  replace (d + 600000000000 - d) with 600000000000 by lia.
  change (0 mod 900000000000) with 0.
  change (600000000000 mod 900000000000) with 600000000000.
  replace (d + 600000000000 - 600000000000 + 900000000000 - (d - 0))
    with 900000000000 by lia.
  change (Z.to_nat (900000000000 / 900000000000)) with 1%nat.
  simpl. f_equal. lia.
Qed.

Lemma quarter_hour_bin (d : Z) (v1 v2 v3 : Value) :
  d mod day_ns = 0 ->
  resample_mean 900000000000
                [(d, v1); (d + 300000000000, v2); (d + 600000000000, v3)]
  = [(d, mean [v1; v2; v3])].
Proof.
  intros Hd. unfold resample_mean.
  change (map fst [(d, v1); (d + 300000000000, v2); (d + 600000000000, v3)])
    with [d; d + 300000000000; d + 600000000000].
  rewrite (quarter_hour_edges d Hd). unfold values_in. cbn [map filter fst].
  replace (d <=? d) with true by (symmetry; apply Z.leb_le; lia).
  replace (d <? d + 900000000000) with true
    by (symmetry; apply Z.ltb_lt; lia).
  replace (d <=? d + 300000000000) with true
    by (symmetry; apply Z.leb_le; lia).
  replace (d + 300000000000 <? d + 900000000000) with true
    by (symmetry; apply Z.ltb_lt; lia).
  replace (d <=? d + 600000000000) with true
    by (symmetry; apply Z.leb_le; lia).
  replace (d + 600000000000 <? d + 900000000000) with true
    by (symmetry; apply Z.ltb_lt; lia).
  reflexivity.
Qed.

(** One row at midnight of the second day of the epoch is in the bin that
    starts at that midnight, whatever the width. *)
Lemma second_day_bin (w : Z) :
  0 < w ->
  In (day_ns, Num 0) (series_dropna (resample_mean w [(day_ns, Num 0)])).
Proof.
  intros Hw.
  destruct (@resample_cover w Hw [(day_ns, Num 0)] day_ns (Num 0)
              (or_introl eq_refl)) as [_ Hc].
  assert (Hb : bin_start (origin_of [(day_ns, Num 0)]) w day_ns = day_ns).
  { rewrite bin_start_eq by exact Hw.
    change (origin_of [(day_ns, Num 0)]) with day_ns.
    rewrite Z.sub_diag, Z.mod_0_l by lia. lia. }
  rewrite Hb in Hc.
  assert (Hv : values_in day_ns w [(day_ns, Num 0)] = [Num 0]).
  { unfold values_in. cbn [filter fst].
    replace (day_ns <=? day_ns) with true by (symmetry; apply Z.leb_le; lia).
    replace (day_ns <? day_ns + w) with true
      by (symmetry; apply Z.ltb_lt; lia).
    reflexivity. }
  rewrite Hv in Hc.
  change (mean [Num 0]) with (Num (0 + 0 / inject_Z 1)) in Hc |- *.
  apply Hc. discriminate.
Qed.

End QuarterHour.

(** C3, as stated, fails for a width that does not divide the day: under
    the rule [7min] a point at 00:03 is put in the bin that starts at
    00:00 of its day, which is not a multiple of seven minutes since the
    epoch (the bin of the epoch grid that holds 00:03 starts at 00:01). *)
Lemma bins_not_epoch_aligned :
  exists p s w b,
    snd (main (P := Ref.parsers) (with_rule (Some "7min"%string)) 0%Z
              [three_past_file]) = Ok p /\
    series p = [s] /\
    x s = ["2024-01-01T00:00:00Z"%string] /\
    Ref.to_offset "7min" = Some w /\
    Ref.parse_datetime (list_ascii_of_string "2024-01-01T00:00:00Z") = Some b /\
    (b mod Zpos w <> 0)%Z /\
    strftime (1704067380000000000 - 1704067380000000000 mod Zpos w)%Z
    = "2024-01-01T00:01:00Z"%string.
Proof.
  do 4 eexists. split; [vm_compute; reflexivity|].
  split; [reflexivity|]. split; [reflexivity|].
  split; [vm_compute; reflexivity|]. split; [vm_compute; reflexivity|].
  split; [vm_compute; discriminate | vm_compute; reflexivity].
Qed.

(** C3, amended: under a rule that is not disabled and names a fixed
    width, a series, which has a row when it reaches [resample_df], is
    replaced by one point per bin whose mean is not NaN, in ascending
    order; the bins have that width and are aligned on midnight UTC of
    the day of the earliest instant of the series; the point of a bin
    carries the start of the bin and the mean of the values that fall in
    it; a bin without data gives no point, and neither does a bin whose
    values have no mean, as +inf and -inf together; every row falls in
    one bin, which is kept when its mean is not NaN, as it is, in exact
    arithmetic, when the values are finite.  The bins of every series
    start at multiples of the width since the epoch exactly when the
    width divides the day.  Points at 00:00, 00:05 and 00:10 under a
    15-minute width become one point at 00:00 with the mean of the three
    values.  Under a disabled rule the series is returned as it is. *)
Theorem resample_df_bins (P : Parsers) (df : Frame) (rule : string)
        (w : positive) :
  df <> [] ->
  disabled (Some rule) = false ->
  to_offset rule = Some w ->
  exists out,
    resample_df df (Some rule) = Ok out /\
    increasing (map fst out) /\
    (forall b v, In (b, v) out ->
                 ((b - origin_of df) mod Zpos w = 0)%Z /\
                 values_in b (Zpos w) df <> [] /\
                 v = mean (values_in b (Zpos w) df) /\
                 v <> NaN) /\
    (forall t v, In (t, v) df ->
                 let b := bin_start (origin_of df) (Zpos w) t in
                 (b <= t < b + Zpos w)%Z /\
                 ((b - origin_of df) mod Zpos w = 0)%Z /\
                 (mean (values_in b (Zpos w) df) <> NaN ->
                  In (b, mean (values_in b (Zpos w) df)) out) /\
                 (mean (values_in b (Zpos w) df) = NaN ->
                  ~ In b (map fst out))) /\
    (Forall (fun r => finite (snd r)) df ->
     forall t v, In (t, v) df ->
                 exists b m, In (b, Num m) out /\ (b <= t < b + Zpos w)%Z) /\
    ((Zpos w | day_ns)%Z <->
     forall (df' out' : Frame) b v,
       resample_df df' (Some rule) = Ok out' ->
       In (b, v) out' -> (b mod Zpos w = 0)%Z) /\
    (forall d v1 v2 v3,
        Zpos w = 900000000000%Z ->
        (d mod day_ns = 0)%Z ->
        resample_df [(d, v1); (d + 300000000000, v2);
                     (d + 600000000000, v3)]%Z (Some rule)
        = Ok (series_dropna [(d, mean [v1; v2; v3])]) /\
        forall q1 q2 q3,
          v1 = Num q1 -> v2 = Num q2 -> v3 = Num q3 ->
          exists m,
            series_dropna [(d, mean [v1; v2; v3])] = [(d, Num m)] /\
            (m == (q1 + q2 + q3) / 3)%Q) /\
    (forall (df' : Frame) (rule' : option string),
        disabled rule' = true -> resample_df df' rule' = Ok df').
Proof.
  intros _ Hen Hw. assert (Hpos : (0 < Zpos w)%Z) by lia.
  assert (Hres : forall df', resample_df df' (Some rule)
                 = Ok (series_dropna (resample_mean (Zpos w) df')))
    by (intros df'; apply resample_df_enabled; assumption).
  exists (series_dropna (resample_mean (Zpos w) df)).
  split; [apply Hres|].
  split; [apply resample_increasing; exact Hpos|].
  split; [|split; [|split; [|split; [|split]]]].
  - intros b v Hin. apply resample_In in Hin. destruct Hin as (He & Hm & Hv).
    split; [|split; [apply mean_notna; congruence | auto]].
    unfold origin_of. destruct (map fst df) as [|t0 ts]; [destruct He|].
    apply bin_edges_aligned; assumption.
  - intros t v Hin. cbv zeta.
    destruct (resample_cover Hpos df t v Hin) as [He Hc].
    split; [apply bin_start_bounds; exact Hpos|].
    split; [apply bin_start_aligned; exact Hpos|].
    split; [exact Hc|].
    intros Hnan Hb. apply in_map_iff in Hb. destruct Hb as ([b v'] & Hb & Hin').
    cbn [fst] in Hb. subst b. apply resample_In in Hin'.
    destruct Hin' as (_ & Hm & Hv). congruence.
  - intros Hf t v Hin.
    destruct (@resample_cover_finite (Zpos w) Hpos df t v Hf Hin) as [m Hm].
    exists (bin_start (origin_of df) (Zpos w) t), m.
    split; [exact Hm | apply bin_start_bounds; exact Hpos].
  - split.
    + intros Hdiv df' out' b v Hout Hin. rewrite Hres in Hout.
      injection Hout as <-. apply resample_In in Hin. destruct Hin as [He _].
      destruct (map fst df') as [|t0 ts]; [destruct He|].
      eapply bin_edges_epoch; eauto.
    + intros Hall.
      specialize (Hall [(day_ns, Num 0)] _ day_ns (Num 0)
                       (Hres _) (second_day_bin Hpos)).
      apply Z.mod_divide; [lia | exact Hall].
  - intros d v1 v2 v3 Hq Hd. split.
    + rewrite Hres, Hq, (quarter_hour_bin d _ _ _ Hd). reflexivity.
    + intros q1 q2 q3 -> -> ->.
      destruct (mean_triple q1 q2 q3) as (m & Hm & Heq).
      exists m. rewrite Hm. split; [reflexivity | exact Heq].
  - intros df' rule' Hdis. apply resample_df_disabled. exact Hdis.
Qed.

Lemma resample_df_bins_witness :
  exists out,
    resample_df (P := Ref.parsers)
                [(1704067200000000000%Z, Num 1);
                 (1704067500000000000%Z, Num 2);
                 (1704067800000000000%Z, Num 6)] (Some "15min"%string)
    = Ok out /\
    increasing (map fst out).
Proof.
  destruct (@resample_df_bins Ref.parsers
              [(1704067200000000000%Z, Num 1);
               (1704067500000000000%Z, Num 2);
               (1704067800000000000%Z, Num 6)] "15min"%string
              900000000000%positive ltac:(discriminate) eq_refl eq_refl)
    as (out & Hout & Hinc & _).
  exists out. split; assumption.
Defined.

(* ===================================================================== *)
(** ** Runs on concrete files *)
(* ===================================================================== *)

Section Scenario.

Lemma scenario_load (rule : option string) :
  load_dat (P := Ref.parsers) (with_rule rule) scenario_text
  = Ok scenario_rows.
Proof. vm_compute. reflexivity. Qed.

Lemma scenario_run (rule : option string) (now : Timestamp)
      (ps : list string) :
  disabled rule = true ->
  snd (main (P := Ref.parsers) (with_rule rule) now
            [{| parts := ps; content := scenario_text |}])
  = Ok (payload_of (with_rule rule) now
          [render (station_name_from_path ps)
                  (groupby_mean (sort_values scenario_rows))]).
Proof.
  intros Hdis. rewrite main_result. unfold load_all. cbn [fold_left].
  unfold load_step. cbn [content parts]. rewrite scenario_load.
  cbn [scenario_rows fst setdefault_append build_series].
  unfold aggregate. cbn [RESAMPLE_RULE with_rule].
  rewrite (resample_df_disabled _ _ Hdis). cbn [bind List.concat].
  rewrite List.app_nil_r. reflexivity.
Qed.

End Scenario.

(** C1: on the file of the scenario, with the unit [psi] and resampling
    disabled, the run emits for the station of that file the timestamps
    2024-01-01T00:00:00Z and 2024-01-01T00:15:00Z with the values
    [round(15.0 * 6.89475729, 4)] and [round(30.0 * 6.89475729, 4)]:
    the two rows of 00:00 are averaged, and every value is multiplied by
    6.89475729 before it is rounded to four decimals. *)
Theorem scenario_output (now : Timestamp) (ps : list string)
        (rule : option string) :
  In rule [None; Some ""%string; Some "None"%string; Some "none"%string] ->
  exists p,
    snd (main (P := Ref.parsers)
              {| ASSUME_UNITS := "psi"; LOCAL_TZ := "UTC";
                 RESAMPLE_RULE := rule |}
              now [{| parts := ps; content := scenario_text |}]) = Ok p /\
    series p
    = [{| station := station_name_from_path ps;
          x := ["2024-01-01T00:00:00Z"; "2024-01-01T00:15:00Z"]%string;
          y := [Num (round4 (15 * (689475729 # 100000000)));
                Num (round4 (30 * (689475729 # 100000000)))];
          unit := "kPa" |}] /\
    count_series (meta p) = 1%nat /\
    (round4 (15 * (689475729 # 100000000)) == 103.4214)%Q /\
    (round4 (30 * (689475729 # 100000000)) == 206.8427)%Q.
Proof.
  intros Hrule.
  assert (Hdis : disabled rule = true)
    by (simpl in Hrule; intuition (subst; reflexivity)).
  eexists. split; [exact (@scenario_run rule now ps Hdis)|].
  split; [|split; [reflexivity|]].
  - unfold payload_of, render. cbn [series].
    do 2 f_equal; vm_compute; reflexivity.
  - split; vm_compute; reflexivity.
Qed.

Lemma scenario_output_witness :
  exists p,
    snd (main (P := Ref.parsers)
              {| ASSUME_UNITS := "psi"; LOCAL_TZ := "UTC";
                 RESAMPLE_RULE := Some "None"%string |}
              0%Z [scenario_file]) = Ok p /\
    map x (series p)
    = [["2024-01-01T00:00:00Z"; "2024-01-01T00:15:00Z"]%string].
Proof.
  destruct (@scenario_output 0%Z ["MJ03F"; "PARO1"; "a.dat"]%string
              (Some "None"%string))
    as (p & Hp & Hs & _).
  - simpl. auto.
  - exists p. split; [exact Hp|]. rewrite Hs. reflexivity.
Defined.

(** C4 fails on the code: with the rule ["None"], the documented way to
    switch resampling off, [resample_df] returns every frame as it is,
    the run writes its payload, and the note of that payload is the one
    of a resampled run. *)
Theorem note_ignores_none_rule (P : Parsers) (units tz : string)
        (now : Timestamp) (files : list File) :
  (forall df, resample_df df (Some "None"%string) = Ok df) /\
  exists p,
    snd (main {| ASSUME_UNITS := units; LOCAL_TZ := tz;
                 RESAMPLE_RULE := Some "None"%string |} now files) = Ok p /\
    note (meta p) = "Resampled for display"%string.
Proof.
  split; [intros df; reflexivity|].
  set (cfg := {| ASSUME_UNITS := units; LOCAL_TZ := tz;
                 RESAMPLE_RULE := Some "None"%string |}).
  rewrite main_result.
  destruct (build_series_ok cfg (fst (load_all cfg files))) as [series ->].
  - intros r _. left. reflexivity.
  - cbn [bind]. eexists. split; reflexivity.
Qed.

(** The note follows the truth value of the rule, the pass-through
    follows [disabled]: they disagree exactly on the non-empty rules that
    read "none" in lower case. *)
Lemma note_and_resampling_disagree (rule : option string) :
  truthy rule = disabled rule
  <-> exists r, rule = Some r /\ r <> ""%string /\ lower r = "none"%string.
Proof.
  destruct rule as [r|]; simpl.
  - destruct (String.eqb_spec r ""); simpl.
    + split; [discriminate|]. intros (r' & Heq & Hne & _).
      inversion Heq; subst. congruence.
    + destruct (String.eqb_spec (lower r) "none"); split.
      * intros _. eauto.
      * intros _. reflexivity.
      * discriminate.
      * intros (r' & Heq & _ & Hl). inversion Heq; subst. congruence.
  - split; [discriminate|]. intros (r & H & _). discriminate.
Qed.

(** C9 fails on the code: [LOCAL_TZ] is never read, so the run is the same
    under every time zone label; under [America/Los_Angeles] a timestamp
    without offset, 2024-01-01 00:00:00, is emitted as 00:00:00 UTC and
    not as 08:00:00 UTC. *)
Theorem local_tz_is_ignored (P : Parsers) (units tz tz' : string)
        (rule : option string) (now : Timestamp) (files : list File) :
  main {| ASSUME_UNITS := units; LOCAL_TZ := tz; RESAMPLE_RULE := rule |}
       now files
  = main {| ASSUME_UNITS := units; LOCAL_TZ := tz'; RESAMPLE_RULE := rule |}
         now files /\
  exists p s,
    snd (main (P := Ref.parsers)
              {| ASSUME_UNITS := "psi"; LOCAL_TZ := "America/Los_Angeles";
                 RESAMPLE_RULE := Some "None"%string |} now [naive_file])
    = Ok p /\
    series p = [s] /\
    x s = ["2024-01-01T00:00:00Z"%string].
Proof.
  split; [reflexivity|].
  rewrite main_result.
  assert (Hb : build_series (P := Ref.parsers)
                 {| ASSUME_UNITS := "psi"; LOCAL_TZ := "America/Los_Angeles";
                    RESAMPLE_RULE := Some "None"%string |}
                 (fst (load_all (P := Ref.parsers)
                         {| ASSUME_UNITS := "psi";
                            LOCAL_TZ := "America/Los_Angeles";
                            RESAMPLE_RULE := Some "None"%string |}
                         [naive_file]))
               = Ok [{| station := "n";
                        x := ["2024-01-01T00:00:00Z"%string];
                        y := [Num (round4 (10 * PSI_TO_KPA))];
                        unit := "kPa" |}])
    by (vm_compute; reflexivity).
  rewrite Hb. cbn [bind]. eexists. eexists.
  split; [reflexivity|]. split; reflexivity.
Qed.

(* ===================================================================== *)
(** ** The reference reader *)
(* ===================================================================== *)

Section Reader.

Lemma mangle_length (seen cols : list string) :
  List.length (Ref.mangle seen cols) = List.length cols.
Proof.
  revert seen. induction cols as [|c cols IH]; intros seen; simpl; auto.
Qed.

Lemma labels_length (header : list (list ascii)) :
  List.length (Ref.labels header) = List.length header.
Proof.
  unfold Ref.labels. rewrite mangle_length, length_map, length_combine.
  rewrite length_seq. apply Nat.min_id.
Qed.

Lemma map_snd_combine {A B : Type} (l : list A) (l' : list B) :
  List.length l = List.length l' -> map snd (combine l l') = l'.
Proof.
  revert l'. induction l as [|a l IH]; intros [|b l']; simpl;
    try discriminate; auto.
  intros [= H]. f_equal. auto.
Qed.

(** The frame has the labels of the header row and one cell per data row
    in every column. *)
Lemma build_frame_shape (suffix : string) (header : list (list ascii))
      (rows : list Ref.Row) (df : RawFrame) :
  Ref.build_frame suffix header rows = Ok df ->
  columns df = Ref.labels header /\
  Forall (fun col => List.length (snd col) = List.length rows) df.
Proof.
  unfold Ref.build_frame.
  match goal with
  | |- context [filter ?f rows] => destruct (filter f rows)
  end; [|discriminate].
  intros [= <-]. split.
  - unfold columns. rewrite map_map. cbn [fst].
    apply map_snd_combine. rewrite length_seq, labels_length. reflexivity.
  - apply Forall_forall. intros col Hcol. apply in_map_iff in Hcol.
    destruct Hcol as (p & <- & _). cbn [snd]. apply length_map.
Qed.

(** The sniffed line is the first line that is not only a comment; the
    lines before it are skipped and the lines after it are left. *)
Lemma first_valid_line_split (lines : list (nat * list ascii))
      (line : list ascii) (rest : list (nat * list ascii)) :
  Ref.first_valid_line lines = (line, rest) ->
  (line = [] /\ rest = [] /\
   Forall (fun l => Ref.check_comments [snd l] = []) lines) \/
  exists skipped l,
    lines = skipped ++ l :: rest /\
    Forall (fun l => Ref.check_comments [snd l] = []) skipped /\
    hd_error (Ref.check_comments [snd l]) = Some line.
Proof.
  induction lines as [|l lines IH]; cbn [Ref.first_valid_line].
  - intros [= <- <-]. left. auto.
  - destruct (Ref.check_comments [snd l]) as [|x xs] eqn:E.
    + intros H. destruct (IH H) as [(-> & -> & Hall)|(skipped & l' & -> & Hs & Hl)].
      * left. auto.
      * right. exists (l :: skipped), l'. auto.
    + intros [= <- <-]. right. exists [], l. rewrite E. auto.
Qed.

Lemma clean_rows_length (split : list ascii -> list (list ascii))
      (lines : list (nat * list ascii)) :
  (List.length (Ref.clean_rows split lines) <= List.length lines)%nat.
Proof.
  unfold Ref.clean_rows.
  etransitivity; [apply filter_length_le|]. rewrite length_map. auto.
Qed.

End Reader.

(** C10: the reader takes the first line that is not blank or only a
    comment as the row of column labels, whether or not the file has a
    header row: the frame has one row per later line that survives and
    none for that first line, so it has fewer rows than the file has
    lines; a file of two data rows and no header row emits only the
    point of its second line. *)
Theorem first_line_is_header (sep : Sep) (text : string) (df : RawFrame) :
  Ref.read_csv sep text = Ok df ->
  let lines := Ref.number (Ref.readlines (list_ascii_of_string text)) in
  (exists (header : list (list ascii)) (rows : list Ref.Row),
      columns df = Ref.labels header /\
      Forall (fun col => List.length (snd col) = List.length rows) df /\
      (List.length rows < List.length lines)%nat /\
      match sep with
      | SepSniff =>
          exists skipped l rest line d,
            lines = skipped ++ l :: rest /\
            Forall (fun c => Ref.check_comments [snd c] = []) skipped /\
            hd_error (Ref.check_comments [snd l]) = Some line /\
            Ref.sniff line = Ok d /\
            header = Ref.csv_fields d line /\
            rows = Ref.clean_rows (Ref.csv_fields d) rest
      | SepWhitespace =>
          exists n, Ref.clean_rows Ref.ws_fields lines = (n, header) :: rows
      end) /\
  exists p s,
    snd (main (P := Ref.parsers) (with_rule (Some "None"%string)) 0%Z
              [headerless_file]) = Ok p /\
    series p = [s] /\
    x s = ["2024-01-01T00:15:00Z"%string] /\
    y s = [Num (round4 (20 * PSI_TO_KPA))].
Proof.
  intros Hread lines. split.
  - destruct sep; cbn [Ref.read_csv] in Hread.
    + unfold Ref.read_csv_sniff in Hread. fold lines in Hread.
      destruct (Ref.first_valid_line lines) as [line rest] eqn:E.
      destruct (Ref.sniff line) as [d|] eqn:Hd; cbn [bind] in Hread;
        [|discriminate].
      destruct (build_frame_shape _ _ _ Hread) as [Hc Hr].
      destruct (first_valid_line_split _ E)
        as [(-> & _ & _)|(skipped & l & Hl & Hs & Hh)];
        [vm_compute in Hd; discriminate|].
      exists (Ref.csv_fields d line), (Ref.clean_rows (Ref.csv_fields d) rest).
      split; [exact Hc|]. split; [exact Hr|]. split.
      * eapply Nat.le_lt_trans; [apply clean_rows_length|].
        rewrite Hl, length_app. simpl. lia.
      * exists skipped, l, rest, line, d. auto 10.
    + unfold Ref.read_csv_ws in Hread. fold lines in Hread.
      pose proof (clean_rows_length Ref.ws_fields lines) as Hlen.
      destruct (Ref.clean_rows Ref.ws_fields lines) as [|[n header] rows];
        [discriminate|].
      destruct (build_frame_shape _ _ _ Hread) as [Hc Hr].
      exists header, rows. cbn [snd] in *. simpl in Hlen.
      split; [exact Hc|]. split; [exact Hr|]. split; [lia | eauto].
  - eexists. eexists. split; [vm_compute; reflexivity|].
    split; [reflexivity|]. split; vm_compute; reflexivity.
Qed.

Lemma first_line_is_header_witness :
  exists (header : list (list ascii)) (rows : list Ref.Row),
    Ref.read_csv SepSniff (content headerless_file)
    = Ok [("2024-01-01T00:00:00Z"%string, [Some "2024-01-01T00:15:00Z"%string]);
          ("10.0"%string, [Some "20.0"%string])] /\
    header = Ref.csv_fields ","%char
               (list_ascii_of_string "2024-01-01T00:00:00Z,10.0") /\
    List.length rows = 1%nat.
Proof.
  assert (H : Ref.read_csv SepSniff (content headerless_file)
              = Ok [("2024-01-01T00:00:00Z"%string,
                     [Some "2024-01-01T00:15:00Z"%string]);
                    ("10.0"%string, [Some "20.0"%string])])
    by (vm_compute; reflexivity).
  destruct (@first_line_is_header SepSniff (content headerless_file) _ H)
    as [(header & rows & _ & Hr & _ & _) _].
  exists (Ref.csv_fields ","%char
            (list_ascii_of_string "2024-01-01T00:00:00Z,10.0")), rows.
  split; [exact H|]. split; [reflexivity|].
  inversion Hr as [|? ? Hlen _]; subst. simpl in Hlen. symmetry. exact Hlen.
Defined.

(* ===================================================================== *)
(** ** Rendering of instants *)
(* ===================================================================== *)

Section Rendering.

Local Open Scope Z_scope.

(** Instants of the same second are rendered alike. *)
Lemma strftime_same_second (t1 t2 : Z) :
  seconds_of t1 = seconds_of t2 -> strftime t1 = strftime t2.
Proof. unfold seconds_of, strftime. intros ->. reflexivity. Qed.

Lemma string_length_append (a b : string) :
  String.length (a ++ b) = (String.length a + String.length b)%nat.
Proof. induction a as [|c a IH]; simpl; auto. Qed.

Lemma append_inj_length (a a' b b' : string) :
  String.length a = String.length a' ->
  (a ++ b)%string = (a' ++ b')%string -> a = a' /\ b = b'.
Proof.
  revert a'. induction a as [|c a IH]; intros [|c' a']; simpl;
    try discriminate; auto.
  intros [= Hlen] [= -> Happ]. destruct (IH a' Hlen Happ) as [-> ->]. auto.
Qed.

Lemma string_cons_inj (c : ascii) (a b : string) :
  String c a = String c b -> a = b.
Proof. intros [= ->]. reflexivity. Qed.

Lemma zfill_length (width : nat) (n : Z) :
  String.length (zfill width n) = width.
Proof.
  revert n. induction width as [|width IH]; intros n; simpl; [reflexivity|].
  rewrite string_length_append, IH. simpl. lia.
Qed.

Lemma digit_inj (n n' : Z) : digit n = digit n' -> n mod 10 = n' mod 10.
Proof.
  unfold digit. intros H.
  pose proof (Z.mod_pos_bound n 10 ltac:(lia)) as Hn.
  pose proof (Z.mod_pos_bound n' 10 ltac:(lia)) as Hn'.
  apply (f_equal nat_of_ascii) in H.
  rewrite !nat_ascii_embedding in H by lia. lia.
Qed.

Lemma zfill_inj (width : nat) (n n' : Z) :
  0 <= n < 10 ^ Z.of_nat width ->
  0 <= n' < 10 ^ Z.of_nat width ->
  zfill width n = zfill width n' -> n = n'.
Proof.
  revert n n'. induction width as [|width IH]; intros n n' Hn Hn'.
  - simpl in *. lia.
  - rewrite Nat2Z.inj_succ, Z.pow_succ_r in Hn, Hn' by lia.
    cbn [zfill]. intros H.
    apply append_inj_length in H; [|rewrite !zfill_length; reflexivity].
    destruct H as [Hhi Hlo]. injection Hlo as Hlo. apply digit_inj in Hlo.
    assert (Hq : n / 10 = n' / 10).
    { apply IH; [| |exact Hhi]; Z.div_mod_to_equations; lia. }
    Z.div_mod_to_equations. lia.
Qed.

(** A zero-padded field at the head of a string can be read back. *)
Lemma zfill_field_inj (width : nat) (n n' : Z) (r r' : string) :
  0 <= n < 10 ^ Z.of_nat width ->
  0 <= n' < 10 ^ Z.of_nat width ->
  (zfill width n ++ r)%string = (zfill width n' ++ r')%string ->
  n = n' /\ r = r'.
Proof.
  intros Hn Hn' H.
  apply append_inj_length in H; [|rewrite !zfill_length; reflexivity].
  destruct H as [H ->]. split; [|reflexivity]. eapply zfill_inj; eauto.
Qed.

(** The date of a day is a date of the calendar, its year is within 400
    years of the era of the day, and it is the date of no other day. *)
Lemma civil_roundtrip (d : Z) :
  let c := civil_from_days d in
  Ref.days_from_civil (fst (fst c)) (snd (fst c)) (snd c) = d /\
  1 <= snd (fst c) <= 12 /\ 1 <= snd c <= 31 /\
  400 * ((d + 719468) / 146097) <= fst (fst c)
  <= 400 * ((d + 719468) / 146097) + 400.
Proof.
  unfold civil_from_days. cbv zeta. cbn [fst snd].
  set (z := d + 719468). set (era := z / 146097).
  set (doe := z - era * 146097).
  set (yoe := (doe - doe / 1460 + doe / 36524 - doe / 146096) / 365).
  set (doy := doe - (365 * yoe + yoe / 4 - yoe / 100)).
  set (mp := (5 * doy + 2) / 153).
  set (dd := doy - (153 * mp + 2) / 5 + 1).
  set (m := if mp <? 10 then mp + 3 else mp - 9).
  assert (Hdoe : 0 <= doe <= 146096)
    by (unfold doe, era; Z.div_mod_to_equations; lia).
  assert (Hy : 0 <= yoe <= 399 /\ 0 <= doy <= 365)
    by (unfold doy, yoe; Z.div_mod_to_equations; lia).
  destruct Hy as [Hyoe Hdoy].
  assert (Hmp : 0 <= mp <= 11) by (unfold mp; Z.div_mod_to_equations; lia).
  assert (Hdd : 1 <= dd <= 31)
    by (unfold dd, mp; Z.div_mod_to_equations; lia).
  assert (Hd : d = era * 146097 + doe - 719468) by (unfold doe, z; lia).
  assert (Hdoy_eq : doe = 365 * yoe + yoe / 4 - yoe / 100 + doy)
    by (unfold doy; lia).
  assert (Hdd_eq : (153 * mp + 2) / 5 + dd - 1 = doy) by (unfold dd; lia).
  assert (Hm : (mp < 10 /\ m = mp + 3) \/ (10 <= mp /\ m = mp - 9))
    by (unfold m; destruct (Z.ltb_spec mp 10); auto).
  clearbody m dd mp doy yoe doe era z.
  unfold Ref.days_from_civil. cbv zeta.
  destruct Hm as [[Hlt ->]|[Hge ->]].
  - destruct (Z.leb_spec (mp + 3) 2) as [?|_]; [lia|].
    destruct (Z.ltb_spec 2 (mp + 3)) as [_|?]; [|lia].
    replace (mp + 3 - 3) with mp by lia.
    replace ((yoe + era * 400 + 0) / 400) with era
      by (Z.div_mod_to_equations; lia).
    replace (yoe + era * 400 + 0 - era * 400) with yoe by lia.
    repeat split; lia.
  - destruct (Z.leb_spec (mp - 9) 2) as [_|?]; [|lia].
    destruct (Z.ltb_spec 2 (mp - 9)) as [?|_]; [lia|].
    replace (mp - 9 + 9) with mp by lia.
    replace ((yoe + era * 400 + 1 - 1) / 400) with era
      by (Z.div_mod_to_equations; lia).
    replace (yoe + era * 400 + 1 - 1 - era * 400) with yoe by lia.
    repeat split; lia.
Qed.

Lemma in_range_day (t : Z) :
  in_range t -> -106752 <= seconds_of t / 86400 <= 106752.
Proof. unfold in_range, seconds_of. intros H. Z.div_mod_to_equations. lia. Qed.

(** The rendering tells the seconds of two instants apart. *)
Lemma strftime_inj (t1 t2 : Z) :
  in_range t1 -> in_range t2 ->
  strftime t1 = strftime t2 -> seconds_of t1 = seconds_of t2.
Proof.
  intros H1 H2. unfold strftime. fold (seconds_of t1). fold (seconds_of t2).
  pose proof (in_range_day H1) as Hday1.
  pose proof (in_range_day H2) as Hday2.
  set (s1 := seconds_of t1) in *. set (s2 := seconds_of t2) in *.
  pose proof (civil_roundtrip (s1 / 86400)) as Hc1.
  pose proof (civil_roundtrip (s2 / 86400)) as Hc2.
  cbv zeta in Hc1, Hc2.
  destruct (civil_from_days (s1 / 86400)) as [[y1 m1] d1].
  destruct (civil_from_days (s2 / 86400)) as [[y2 m2] d2].
  cbn [fst snd] in Hc1, Hc2.
  destruct Hc1 as (Hr1 & Hm1 & Hd1 & Hy1).
  destruct Hc2 as (Hr2 & Hm2 & Hd2 & Hy2).
  assert (Hy1' : 0 <= y1 < 10000) by (Z.div_mod_to_equations; lia).
  assert (Hy2' : 0 <= y2 < 10000) by (Z.div_mod_to_equations; lia).
  clear Hy1 Hy2.
  pose proof (Z.mod_pos_bound s1 86400 ltac:(lia)) as Hs1.
  pose proof (Z.mod_pos_bound s2 86400 ltac:(lia)) as Hs2.
  set (sod1 := s1 mod 86400) in *. set (sod2 := s2 mod 86400) in *.
  cbn [append]. intros H.
  apply zfill_field_inj in H; [|simpl; lia..]. destruct H as [-> H].
  apply string_cons_inj in H.
  apply zfill_field_inj in H; [|simpl; lia..]. destruct H as [-> H].
  apply string_cons_inj in H.
  apply zfill_field_inj in H; [|simpl; lia..]. destruct H as [-> H].
  apply string_cons_inj in H.
  apply zfill_field_inj in H;
    [|simpl; Z.div_mod_to_equations; lia..]. destruct H as [Hh H].
  apply string_cons_inj in H.
  apply zfill_field_inj in H;
    [|simpl; Z.div_mod_to_equations; lia..]. destruct H as [Hmi H].
  apply string_cons_inj in H.
  apply zfill_field_inj in H;
    [|simpl; Z.div_mod_to_equations; lia..]. destruct H as [Hsec _].
  assert (Hsod : sod1 = sod2) by (Z.div_mod_to_equations; lia).
  assert (Hday : s1 / 86400 = s2 / 86400) by congruence.
  unfold sod1, sod2 in Hsod. Z.div_mod_to_equations. lia.
Qed.

(** Instants of distinct seconds are rendered as distinct strings. *)
Lemma rendered_distinct (ts : list Z) :
  Forall in_range ts ->
  increasing (map seconds_of ts) ->
  NoDup (map strftime ts).
Proof.
  unfold increasing. induction ts as [|t ts IH]; simpl; intros Hr Hs.
  - constructor.
  - inversion Hr as [|? ? Ht Hts]; subst.
    inversion Hs as [|? ? Hs' Hlt]; subst.
    constructor; [|auto].
    intros Hin. apply in_map_iff in Hin. destruct Hin as (t' & Heq & Hin').
    rewrite Forall_forall in Hts, Hlt.
    apply strftime_inj in Heq; [|auto..].
    specialize (Hlt (seconds_of t') (in_map seconds_of _ _ Hin')). lia.
Qed.

(** Increasing instants that are whole seconds are of increasing
    seconds. *)
Lemma whole_seconds_increasing (ts : list Z) :
  Forall (fun t => t mod 1000000000 = 0) ts ->
  increasing ts -> increasing (map seconds_of ts).
Proof.
  unfold increasing, seconds_of.
  induction ts as [|t ts IH]; simpl; intros Hw Hs; constructor.
  - inversion Hw; inversion Hs; subst. auto.
  - inversion Hw as [|? ? Ht Hts]; inversion Hs as [|? ? _ Hlt]; subst.
    apply Forall_forall. intros q Hq. apply in_map_iff in Hq.
    destruct Hq as (t' & <- & Hin). rewrite Forall_forall in Hts, Hlt.
    specialize (Hts t' Hin). specialize (Hlt t' Hin).
    Z.div_mod_to_equations. lia.
Qed.

End Rendering.

Section RenderedSeries.

Context {P : Parsers}.
Variable cfg : Config.

(** Under a rule of whole seconds the instants of a series are whole
    seconds. *)
Lemma aggregate_whole_seconds (dfs : list Frame) (merged : Frame)
      (r : string) (w : positive) :
  RESAMPLE_RULE cfg = Some r ->
  disabled (Some r) = false ->
  to_offset r = Some w ->
  (1000000000 | Zpos w)%Z ->
  aggregate cfg dfs = Ok merged ->
  Forall (fun t => (t mod 1000000000 = 0)%Z) (map fst merged).
Proof.
  intros Hrule Hen Hw Hdiv. unfold aggregate. rewrite Hrule.
  rewrite (@resample_df_enabled P _ r w Hen Hw). intros [= <-].
  apply Forall_forall. intros b Hb. apply series_dropna_times in Hb.
  rewrite resample_mean_times in Hb.
  destruct (map fst (groupby_mean (sort_values (frame_dropna
                                                  (List.concat dfs)))))
    as [|t0 ts]; [destruct Hb|].
  apply (@bin_edges_multiple (Zpos w) ltac:(lia) 1000000000 t0 ts b);
    [lia | | exact Hdiv | exact Hb].
  exists 86400%Z. reflexivity.
Qed.

Lemma increasing_NoDup (ts : list Z) : increasing ts -> NoDup ts.
Proof.
  unfold increasing. induction 1 as [|a l _ IH Hall]; constructor; [|exact IH].
  intros Hin. rewrite Forall_forall in Hall. specialize (Hall a Hin). lia.
Qed.

End RenderedSeries.

(** C2, as stated, fails on the emitted timestamps: two rows a quarter
    and three quarters of a second after midnight are two points of the
    series, and both are rendered as the same string. *)
Lemma rendered_timestamps_repeat :
  exists p s,
    snd (main (P := Ref.parsers) (with_rule (Some "None"%string)) 0%Z
              [subsecond_file]) = Ok p /\
    In s (series p) /\
    x s = ["2024-01-01T00:00:00Z"; "2024-01-01T00:00:00Z"]%string /\
    ~ NoDup (x s).
Proof.
  eexists. eexists. split; [vm_compute; reflexivity|].
  split; [left; reflexivity|]. split; [reflexivity|].
  simpl. intros H. inversion H as [|? ? Hnotin _]; subst.
  apply Hnotin. left. reflexivity.
Qed.

(** C2, amended: for every emitted station the instants of its aggregated
    series, before they are rendered as text, are strictly increasing
    (hence unique), with and without resampling; the emitted strings are
    these instants cut to whole seconds: instants of one second are
    emitted as the same string, and the emitted strings are pairwise
    distinct when the instants fall in distinct seconds, as they do under
    a resampling width of whole seconds.  The aggregation first replaces
    the rows of a station that share an instant by one point whose value
    is the mean of their values, [(v1 + v2) / 2] for two rows. *)
Theorem series_instants_increase (P : Parsers) (cfg : Config)
        (now : Timestamp) (files : list File) (p : Payload) :
  snd (main cfg now files) = Ok p ->
  Forall2 (fun rec s => exists merged,
               aggregate cfg (snd rec) = Ok merged /\
               s = render (fst rec) merged /\
               increasing (map fst merged) /\
               NoDup (map fst merged) /\
               x s = map strftime (map fst merged) /\
               (Forall in_range (map fst merged) ->
                increasing (map seconds_of (map fst merged)) ->
                NoDup (x s)) /\
               (forall r w,
                   RESAMPLE_RULE cfg = Some r ->
                   disabled (Some r) = false ->
                   to_offset r = Some w ->
                   (1000000000 | Zpos w)%Z ->
                   Forall in_range (map fst merged) ->
                   NoDup (x s)))
          (fst (load_all cfg files)) (series p) /\
  (forall t1 t2, seconds_of t1 = seconds_of t2 -> strftime t1 = strftime t2) /\
  (forall dfs : list Frame,
      let rows := frame_dropna (List.concat dfs) in
      let dedup := groupby_mean (sort_values rows) in
      aggregate cfg dfs = resample_df dedup (RESAMPLE_RULE cfg) /\
      increasing (map fst dedup) /\
      (forall t m, In (t, m) dedup
                   <-> In t (map fst rows) /\ m = mean (values_at t rows)) /\
      (forall t v1 v2, values_at t rows = [Num v1; Num v2] ->
                       exists m, In (t, Num m) dedup /\
                                 (m == (v1 + v2) / 2)%Q) /\
      (forall t v1 v2, values_at t rows = [v1; v2] ->
                       exists m, In (t, m) dedup /\
                                 veq m (vdiv_count (vadd v1 v2) 2))).
Proof.
  intros Hmain. destruct (main_series cfg now files Hmain) as [Hb _].
  split; [|split; [exact strftime_same_second|]].
  - eapply Forall2_impl; [|exact (build_series_spec cfg _ Hb)].
    intros rec s (merged & Ha & Hs). exists merged.
    pose proof (aggregate_increasing cfg _ Ha) as Hinc.
    assert (Hx : x s = map strftime (map fst merged)) by (subst s; reflexivity).
    split; [exact Ha|]. split; [exact Hs|]. split; [exact Hinc|].
    split; [apply increasing_NoDup; exact Hinc|]. split; [exact Hx|]. split.
    + intros Hr Hsec. rewrite Hx. apply rendered_distinct; assumption.
    + intros r w Hrule Hen Hw Hdiv Hr. rewrite Hx.
      apply rendered_distinct; [exact Hr|].
      apply whole_seconds_increasing; [|exact Hinc].
      eapply aggregate_whole_seconds; eauto.
  - intros dfs rows dedup. split; [reflexivity|].
    split; [apply groupby_mean_increasing|].
    assert (Hin : forall t m, In (t, m) dedup
                    <-> In t (map fst rows) /\ m = mean (values_at t rows)).
    { intros t m. unfold dedup. rewrite groupby_mean_In.
      rewrite values_at_sort_values. split; intros [Ht Hm]; split; auto.
      - apply in_map_iff in Ht. destruct Ht as (r & <- & Hr).
        apply in_map. apply sort_values_In. exact Hr.
      - apply in_map_iff in Ht. destruct Ht as (r & <- & Hr).
        apply in_map. apply sort_values_In. exact Hr. }
    assert (Hkey : forall t, values_at t rows <> [] -> In t (map fst rows)).
    { intros t Hne. clear - Hne. unfold values_at in Hne.
      induction rows as [|r rows IH]; simpl in *; [congruence|].
      destruct (Z.eqb_spec (fst r) t); [left; assumption | right; auto]. }
    split; [exact Hin|]. split.
    + intros t v1 v2 Hv. destruct (mean_pair v1 v2) as (m & Hm & Heq).
      exists m. split; [|exact Heq]. apply Hin. rewrite Hv.
      split; [|symmetry; exact Hm]. apply Hkey. rewrite Hv. discriminate.
    + intros t v1 v2 Hv. exists (mean [v1; v2]). split.
      * apply Hin. rewrite Hv. split; [|reflexivity].
        apply Hkey. rewrite Hv. discriminate.
      * assert (Hna : forall v, In v (values_at t rows) -> v <> NaN).
        { intros v Hvin. apply values_at_In in Hvin.
          apply (proj1 (frame_dropna_In _ _)) in Hvin. tauto. }
        rewrite Hv in Hna.
        apply mean_pair_value; apply Hna; simpl; auto.
Qed.

Lemma series_instants_increase_witness :
  exists p,
    snd (main (P := Ref.parsers) (with_rule (Some "None"%string)) 0%Z
              [subsecond_file]) = Ok p /\
    Forall2 (fun rec s => exists merged,
                 aggregate (P := Ref.parsers)
                           (with_rule (Some "None"%string)) (snd rec)
                 = Ok merged /\
                 s = render (fst rec) merged /\
                 increasing (map fst merged))
            (fst (load_all (P := Ref.parsers) (with_rule (Some "None"%string))
                           [subsecond_file]))
            (series p).
Proof.
  eexists. split; [vm_compute; reflexivity|].
  eapply Forall2_impl;
    [|refine (proj1 (@series_instants_increase Ref.parsers
                       (with_rule (Some "None"%string)) 0%Z
                       [subsecond_file] _ _)); vm_compute; reflexivity].
  intros rec s (merged & Ha & Hs & Hinc & _). eauto.
Defined.

(* ===================================================================== *)
(** ** Station names *)
(* ===================================================================== *)

Section Stations.

Lemma has_char_append (c : ascii) (a b : string) :
  has_char c (a ++ b) = has_char c a || has_char c b.
Proof.
  induction a as [|x a IH]; simpl; [reflexivity|].
  rewrite IH, orb_assoc. reflexivity.
Qed.

(** Two texts cut at their first separator have the same pieces. *)
Lemma split_at_slash (p p' r r' : string) :
  slash_free p -> slash_free p' ->
  (p ++ "/" ++ r)%string = (p' ++ "/" ++ r')%string ->
  p = p' /\ r = r'.
Proof.
  unfold slash_free. revert p'.
  induction p as [|c p IH]; intros [|c' p']; simpl.
  - intros _ _ [= ->]. auto.
  - intros _ H' [= <- _]. simpl in H'. discriminate.
  - intros H _ [= -> _]. simpl in H. discriminate.
  - intros H H' [= -> Heq].
    apply orb_false_iff in H, H'. destruct H as [_ H], H' as [_ H'].
    destruct (IH p' H H' Heq) as [-> ->]. auto.
Qed.

Lemma join_cons (p q : string) (ps : list string) :
  join "/" (p :: q :: ps) = (p ++ "/" ++ join "/" (q :: ps))%string.
Proof. reflexivity. Qed.

(** [join] is injective on non-empty lists of path components. *)
Lemma join_inj (d1 d2 : list string) :
  d1 <> [] -> d2 <> [] ->
  Forall slash_free d1 -> Forall slash_free d2 ->
  join "/" d1 = join "/" d2 -> d1 = d2.
Proof.
  revert d2. induction d1 as [|p [|q ps] IH]; intros [|p' [|q' ps']];
    try congruence; intros _ _ H1 H2.
  - simpl. intros ->. reflexivity.
  - rewrite join_cons. cbn [join]. intros ->.
    inversion H1 as [|? ? Hp _]; subst. unfold slash_free in Hp.
    rewrite has_char_append in Hp. simpl in Hp.
    rewrite orb_true_r in Hp. discriminate.
  - rewrite join_cons. cbn [join]. intros <-.
    inversion H2 as [|? ? Hp _]; subst. unfold slash_free in Hp.
    rewrite has_char_append in Hp. simpl in Hp.
    rewrite orb_true_r in Hp. discriminate.
  - rewrite !join_cons. intros Heq.
    inversion H1 as [|? ? Hp H1']; subst.
    inversion H2 as [|? ? Hp' H2']; subst.
    destruct (@split_at_slash p p' _ _ Hp Hp' Heq) as [-> Hr].
    f_equal. apply IH; auto; discriminate.
Qed.

Lemma station_of_directory (dir : list string) (name : string) :
  dir <> [] -> station_name_from_path (dir ++ [name]) = join "/" dir.
Proof.
  intros Hne. unfold station_name_from_path. rewrite removelast_last.
  destruct dir; [congruence | reflexivity].
Qed.

Lemma rfind_dot_none (s : string) :
  has_char "."%char s = false -> rfind_dot s = None.
Proof.
  induction s as [|c s IH]; simpl; [reflexivity|].
  intros H. apply orb_false_iff in H. destruct H as [Hc Hs].
  rewrite (IH Hs), Hc. reflexivity.
Qed.

Lemma rfind_dot_last (base ext : string) :
  has_char "."%char ext = false ->
  rfind_dot (base ++ String "."%char ext) = Some (String.length base).
Proof.
  intros Hext. induction base as [|c base IH]; simpl.
  - rewrite (@rfind_dot_none ext Hext). reflexivity.
  - rewrite IH. reflexivity.
Qed.

Lemma substring_prefix (a b : string) :
  substring 0 (String.length a) (a ++ b) = a.
Proof.
  induction a as [|c a IH]; simpl.
  - destruct b; reflexivity.
  - rewrite IH. reflexivity.
Qed.

(** [stem] removes the last suffix of a name, and nothing of a name that
    starts with its only dot. *)
Lemma stem_suffix (base ext : string) :
  base <> EmptyString -> ext <> EmptyString ->
  has_char "."%char ext = false ->
  stem (base ++ String "."%char ext) = base.
Proof.
  intros Hb He Hext. unfold stem. rewrite (@rfind_dot_last base ext Hext).
  assert (Hlen : String.length (base ++ String "."%char ext)
                 = (String.length base + S (String.length ext))%nat).
  { clear. induction base; simpl; auto. }
  rewrite Hlen.
  destruct base as [|c base]; [congruence|].
  destruct ext as [|e ext]; [congruence|].
  assert (H1 : (0 <? String.length (String c base))%nat = true)
    by (apply Nat.ltb_lt; simpl; lia).
  assert (H2 : (String.length (String c base)
                <? String.length (String c base)
                   + S (String.length (String e ext)) - 1)%nat = true)
    by (apply Nat.ltb_lt; simpl; lia).
  rewrite H1, H2. apply substring_prefix.
Qed.

Lemma stem_hidden (ext : string) :
  has_char "."%char ext = false ->
  stem (String "."%char ext) = String "."%char ext.
Proof.
  intros Hext. unfold stem.
  pose proof (@rfind_dot_last EmptyString ext Hext) as H.
  cbn [append String.length] in H. rewrite H. reflexivity.
Qed.

End Stations.

(** X1: two files that lie in directories below the root have the same
    station exactly when they lie in the same directory, whatever their
    file names; the station is the directory path joined by [/]. *)
Theorem station_same_directory (d1 d2 : list string) (n1 n2 : string) :
  d1 <> [] -> d2 <> [] ->
  Forall slash_free d1 -> Forall slash_free d2 ->
  station_name_from_path (d1 ++ [n1]) = join "/" d1 /\
  (station_name_from_path (d1 ++ [n1]) = station_name_from_path (d2 ++ [n2])
   <-> d1 = d2).
Proof.
  intros H1 H2 Hs1 Hs2.
  rewrite !station_of_directory by assumption.
  split; [reflexivity|]. split.
  - apply join_inj; assumption.
  - intros ->. reflexivity.
Qed.

Lemma station_same_directory_witness :
  station_name_from_path (["MJ03F"; "PARO1"]%string ++ ["f.dat"%string])%list
  = "MJ03F/PARO1"%string /\
  (station_name_from_path (["MJ03F"; "PARO1"]%string ++ ["f.dat"%string])%list
   = station_name_from_path (["MJ03F"; "PARO1"]%string ++ ["g.dat"%string])%list
   <-> ["MJ03F"; "PARO1"]%string = ["MJ03F"; "PARO1"]%string).
Proof.
  apply (@station_same_directory ["MJ03F"; "PARO1"]%string
           ["MJ03F"; "PARO1"]%string "f.dat"%string "g.dat"%string);
    try discriminate; repeat constructor.
Defined.

(** X2: a file directly in the root directory has as station its name
    without the last suffix; a name that is only a dot and a suffix, such
    as [.dat], is kept whole. *)
Theorem station_of_root_file (base ext : string) :
  ext <> EmptyString ->
  has_char "."%char ext = false ->
  (base <> EmptyString ->
   station_name_from_path [(base ++ String "."%char ext)%string] = base) /\
  station_name_from_path [String "."%char ext] = String "."%char ext.
Proof.
  intros He Hext. split.
  - intros Hb. unfold station_name_from_path. cbn [removelast last].
    apply stem_suffix; assumption.
  - unfold station_name_from_path. cbn [removelast last].
    apply stem_hidden; assumption.
Qed.

Lemma station_of_root_file_witness :
  station_name_from_path ["a.b.dat"%string] = "a.b"%string /\
  station_name_from_path [".dat"%string] = ".dat"%string.
Proof.
  destruct (@station_of_root_file "a.b"%string "dat"%string) as [H1 H2];
    try discriminate; try reflexivity.
  split; [apply H1; discriminate | exact H2].
Defined.

(** X3: a file [h.<ext>] directly in the root directory and the files of
    the directory [h] have the same station: the two are not kept
    apart. *)
Theorem station_root_file_meets_directory (base ext name : string) :
  base <> EmptyString ->
  ext <> EmptyString ->
  has_char "."%char ext = false ->
  station_name_from_path [(base ++ String "."%char ext)%string]
  = station_name_from_path [base; name].
Proof.
  intros Hb He Hext. unfold station_name_from_path.
  cbn [removelast last join]. apply stem_suffix; assumption.
Qed.

Lemma station_root_file_meets_directory_witness :
  station_name_from_path ["h.dat"%string]
  = station_name_from_path ["h"; "f.dat"]%string.
Proof.
  apply (@station_root_file_meets_directory "h"%string "dat"%string
           "f.dat"%string); try discriminate; reflexivity.
Defined.

(* ===================================================================== *)
(** ** Bounds of the column inference *)
(* ===================================================================== *)

(** X4: on a header with at least one column [_find_cols] returns two
    labels of that header; it raises, with [IndexError], only on a header
    without columns. *)
Theorem find_cols_in_header (columns : list string) :
  (columns <> [] ->
   exists tcol vcol,
     _find_cols columns = Ok (tcol, vcol) /\
     In tcol columns /\ In vcol columns) /\
  (columns = [] -> exists msg, _find_cols columns = Raise (IndexError msg)).
Proof.
  split.
  - intros Hne. destruct (find_cols_ok Hne) as (tcol & vcol & Ht & Hv & Hok).
    exists tcol, vcol. split; [exact Hok|].
    split; eapply nth_error_In; eauto.
  - intros ->. eexists. reflexivity.
Qed.

Lemma find_cols_in_header_witness :
  exists tcol vcol,
    _find_cols ["P"; "T"]%string = Ok (tcol, vcol) /\
    In tcol ["P"; "T"]%string /\ In vcol ["P"; "T"]%string.
Proof.
  apply (proj1 (find_cols_in_header ["P"; "T"]%string)). discriminate.
Defined.

(** X5: when the time key is found in the second column and no label is a
    value key, the second column is returned for both roles: the test on
    lines 42 and 43 assigns the index it has just compared. *)
Theorem find_cols_same_column (c0 c1 : string) (rest : list string) :
  unrecognized val_keys (c0 :: c1 :: rest) ->
  fst (find_idx (c0 :: c1 :: rest)) = 1%nat ->
  find_idx (c0 :: c1 :: rest) = (1%nat, 1%nat) /\
  _find_cols (c0 :: c1 :: rest) = Ok (c1, c1).
Proof.
  intros Hv Ht.
  assert (Hs : snd (find_idx (c0 :: c1 :: rest)) = 1%nat)
    by (rewrite (find_idx_value_default Hv); reflexivity).
  assert (Hidx : find_idx (c0 :: c1 :: rest) = (1%nat, 1%nat))
    by (destruct (find_idx (c0 :: c1 :: rest)); simpl in *; congruence).
  split; [exact Hidx|]. unfold _find_cols. rewrite Hidx. reflexivity.
Qed.

Lemma find_cols_same_column_witness :
  _find_cols ["station"; "Time"; "depth"]%string
  = Ok ("Time"%string, "Time"%string).
Proof.
  apply (@find_cols_same_column "station"%string "Time"%string
           ["depth"%string]).
  - intros k Hk. vm_compute in Hk |- *. intuition (subst; discriminate).
  - vm_compute. reflexivity.
Defined.

(* ===================================================================== *)
(** ** Rows of a file *)
(* ===================================================================== *)

Section LoadDat.

Context {P : Parsers}.

Lemma insert_row_sorted (r : Z * Value) (l : Frame) :
  StronglySorted Z.le (map fst l) ->
  StronglySorted Z.le (map fst (insert_row r l)).
Proof.
  induction l as [|h l IH]; simpl; intros Hs.
  - repeat constructor.
  - inversion Hs as [|? ? Hl Hh]; subst.
    destruct (Z.leb_spec (fst r) (fst h)); simpl.
    + constructor; [exact Hs|]. constructor; [assumption|].
      eapply Forall_impl; [|exact Hh]. intros; simpl in *; lia.
    + constructor; [auto|]. apply Forall_forall. intros t Ht.
      apply in_map_iff in Ht. destruct Ht as (x & <- & Hx).
      apply insert_row_In in Hx. destruct Hx as [->|Hx]; [lia|].
      rewrite Forall_forall in Hh. apply Hh. apply in_map. exact Hx.
Qed.

Lemma sort_values_sorted (df : Frame) :
  StronglySorted Z.le (map fst (sort_values df)).
Proof.
  induction df as [|r df IH]; simpl; [constructor|].
  apply insert_row_sorted. exact IH.
Qed.

(** Sorting by time commutes with a change of the values. *)
Lemma insert_row_map (g : Value -> Value) (r : Z * Value) (l : Frame) :
  insert_row (fst r, g (snd r)) (map (fun x => (fst x, g (snd x))) l)
  = map (fun x => (fst x, g (snd x))) (insert_row r l).
Proof.
  induction l as [|h l IH]; simpl; [reflexivity|].
  destruct (fst r <=? fst h)%Z; simpl; [reflexivity|].
  rewrite IH. reflexivity.
Qed.

Lemma sort_values_map (g : Value -> Value) (df : Frame) :
  sort_values (map (fun x => (fst x, g (snd x))) df)
  = map (fun x => (fst x, g (snd x))) (sort_values df).
Proof.
  induction df as [|r df IH]; simpl; [reflexivity|].
  rewrite IH. apply insert_row_map.
Qed.

Lemma map_pair_id (df : Frame) : map (fun r => (fst r, snd r)) df = df.
Proof.
  induction df as [|[t v] df IH]; simpl; [reflexivity|].
  rewrite IH. reflexivity.
Qed.

Lemma sort_values_length (df : Frame) :
  List.length (sort_values df) = List.length df.
Proof.
  induction df as [|r df IH]; simpl; [reflexivity|].
  rewrite <- IH. generalize (sort_values df). intros l.
  induction l as [|h l IHl]; simpl; [reflexivity|].
  destruct (fst r <=? fst h)%Z; simpl; [reflexivity|].
  rewrite IHl. reflexivity.
Qed.

End LoadDat.

(** X6: the rows [load_dat] returns are in ascending order of time, rows
    of equal time being allowed. *)
Theorem load_dat_sorted (P : Parsers) (cfg : Config) (text : string)
        (out : Frame) :
  load_dat cfg text = Ok out ->
  StronglySorted Z.le (map fst out).
Proof.
  unfold load_dat.
  destruct (try_except _ _) as [df|]; cbn [bind]; [|discriminate].
  destruct (raw_empty df); [intros [= <-]; constructor|].
  destruct (_find_cols _) as [[tcol vcol]|]; cbn [bind]; [|discriminate].
  destruct (getitem df tcol) as [tc|]; cbn [bind]; [|discriminate].
  destruct (to_datetime tc) as [t|]; cbn [bind]; [|discriminate].
  destruct (getitem df vcol) as [vc|]; cbn [bind]; [|discriminate].
  destruct (to_numeric vc) as [y|]; cbn [bind]; [|discriminate].
  intros [= <-]. apply sort_values_sorted.
Qed.

Lemma load_dat_sorted_witness :
  StronglySorted Z.le (map fst scenario_rows).
Proof.
  apply (@load_dat_sorted Ref.parsers default_config scenario_text).
  vm_compute. reflexivity.
Defined.

(** X7: the input unit changes nothing but the values: with a unit that
    reads [psi] in lower case [load_dat] returns the rows it returns for
    [kPa] with every value multiplied by 6.89475729, in the same order,
    and with every other unit it returns the rows it returns for [kPa];
    dividing a converted value by the constant gives the value back. *)
Theorem load_dat_units (P : Parsers) (cfg : Config) (u text : string) :
  load_dat (with_units cfg u) text
  = bind (load_dat (with_units cfg "kPa") text)
         (fun rows => Ok (if String.eqb (lower u) "psi"
                          then scale rows else rows)) /\
  (forall v : Q, (v * PSI_TO_KPA / PSI_TO_KPA == v)%Q).
Proof.
  split.
  - unfold load_dat.
    destruct (try_except _ _) as [df|]; cbn [bind]; [|reflexivity].
    destruct (raw_empty df).
    { cbn [bind]. destruct (String.eqb _ _); reflexivity. }
    destruct (_find_cols _) as [[tcol vcol]|]; cbn [bind]; [|reflexivity].
    destruct (getitem df tcol) as [tc|]; cbn [bind]; [|reflexivity].
    destruct (to_datetime tc) as [t|]; cbn [bind]; [|reflexivity].
    destruct (getitem df vcol) as [vc|]; cbn [bind]; [|reflexivity].
    destruct (to_numeric vc) as [y|]; cbn [bind]; [|reflexivity].
    unfold to_kPa. cbn [ASSUME_UNITS with_units].
    change (String.eqb (lower "kPa") "psi") with false. cbv iota.
    rewrite map_pair_id.
    destruct (String.eqb (lower u) "psi").
    + unfold scale.
      rewrite (sort_values_map (fun v => vmul v (Num PSI_TO_KPA))).
      reflexivity.
    + reflexivity.
  - intros v. unfold PSI_TO_KPA. field.
Qed.

(* ===================================================================== *)
(** ** The records of a run *)
(* ===================================================================== *)

Section Records.

Context {P : Parsers}.
Variable cfg : Config.

Lemma load_all_snoc (fs : list File) (f : File) :
  load_all cfg (fs ++ [f]) = load_step cfg (load_all cfg fs) f.
Proof. rewrite load_all_app. reflexivity. Qed.

Lemma mem_cons (s k : string) (ks : list string) :
  mem s (k :: ks) = String.eqb s k || mem s ks.
Proof. reflexivity. Qed.

Lemma add_new_In (acc : list string) (s x : string) :
  In x (add_new acc s) <-> In x acc \/ x = s.
Proof.
  unfold add_new. destruct (mem s acc) eqn:E.
  - apply mem_In in E. split; [auto|]. intros [H| ->]; auto.
  - rewrite in_app_iff. simpl. intuition.
Qed.

Lemma add_new_NoDup (acc : list string) (s : string) :
  NoDup acc -> NoDup (add_new acc s).
Proof.
  intros Hnd. unfold add_new. destruct (mem s acc) eqn:E; [exact Hnd|].
  assert (Hnot : ~ In s acc)
    by (intros Hin; apply mem_In in Hin; congruence).
  clear E. induction Hnd as [|a l Ha Hl IH]; simpl.
  - constructor; [tauto | constructor].
  - constructor.
    + rewrite in_app_iff. simpl. intros [H|[H|[]]]; [tauto|].
      apply Hnot. left. symmetry. exact H.
    + apply IH. intros H. apply Hnot. right. exact H.
Qed.

Lemma first_seen_snoc (l : list string) (s : string) :
  first_seen (l ++ [s]) = add_new (first_seen l) s.
Proof. unfold first_seen. rewrite fold_left_app. reflexivity. Qed.

Lemma first_seen_In (l : list string) (x : string) :
  In x (first_seen l) <-> In x l.
Proof.
  induction l as [|s l IH] using rev_ind; [simpl; tauto|].
  rewrite first_seen_snoc, add_new_In, IH, in_app_iff. simpl. intuition.
Qed.

Lemma first_seen_NoDup (l : list string) : NoDup (first_seen l).
Proof.
  induction l as [|s l IH] using rev_ind; [constructor|].
  rewrite first_seen_snoc. apply add_new_NoDup. exact IH.
Qed.

(** [setdefault(st, []).append(df)] on records given by their keys: the
    key is added when it is new, and its frames get one more frame. *)
Lemma setdefault_append_keys (G : string -> list Frame) (st : string)
      (df : Frame) (keys : list string) :
  NoDup keys ->
  (~ In st keys -> G st = []) ->
  setdefault_append st df (map (fun k => (k, G k)) keys)
  = map (fun k => (k, G k ++ (if String.eqb st k then [df] else [])))
        (add_new keys st).
Proof.
  intros Hnd Hnew. unfold add_new.
  induction keys as [|k ks IH].
  - simpl. rewrite String.eqb_refl, Hnew by tauto. reflexivity.
  - inversion Hnd as [|? ? Hk Hks]; subst.
    rewrite mem_cons. cbn [map setdefault_append].
    rewrite (String.eqb_sym st k).
    destruct (String.eqb_spec k st) as [->|Hne]; cbn [orb].
    + cbn [map]. rewrite String.eqb_refl. f_equal.
      apply map_ext_in. intros a Ha.
      destruct (String.eqb_spec st a) as [<-|_]; [contradiction|].
      rewrite List.app_nil_r. reflexivity.
    + rewrite IH; [|exact Hks|intros H; apply Hnew; simpl; tauto].
      destruct (mem st ks); cbn [map app];
        (destruct (String.eqb_spec st k) as [Heq|_]; [congruence|]);
        rewrite List.app_nil_r; reflexivity.
Qed.

Lemma contributing_snoc (fs : list File) (f : File) :
  contributing cfg (fs ++ [f])
  = contributing cfg fs
    ++ match load_dat cfg (content f) with
       | Ok (_ :: _) => [station_name_from_path (parts f)]
       | _ => []
       end.
Proof.
  unfold contributing. rewrite flat_map_app. simpl.
  rewrite List.app_nil_r. reflexivity.
Qed.

Lemma frames_for_snoc (st : string) (fs : list File) (f : File) :
  frames_for cfg st (fs ++ [f])
  = frames_for cfg st fs
    ++ match load_dat cfg (content f) with
       | Ok (r :: df) =>
           if String.eqb (station_name_from_path (parts f)) st
           then [r :: df] else []
       | _ => []
       end.
Proof.
  unfold frames_for. rewrite flat_map_app. simpl.
  rewrite List.app_nil_r. reflexivity.
Qed.

Lemma frames_for_nil (st : string) (fs : list File) :
  ~ In st (contributing cfg fs) -> frames_for cfg st fs = [].
Proof.
  unfold contributing, frames_for.
  induction fs as [|f fs IH]; simpl; [reflexivity|].
  rewrite in_app_iff. intros Hnot.
  rewrite IH by tauto. rewrite List.app_nil_r.
  destruct (load_dat cfg (content f)) as [[|r df]|e]; try reflexivity.
  destruct (String.eqb_spec (station_name_from_path (parts f)) st) as [<-|_];
    [|reflexivity].
  exfalso. apply Hnot. left. left. reflexivity.
Qed.

Lemma load_all_records (files : list File) :
  fst (load_all cfg files)
  = map (fun st => (st, frames_for cfg st files))
        (first_seen (contributing cfg files)).
Proof.
  induction files as [|f fs IH] using rev_ind; [reflexivity|].
  rewrite load_all_snoc, contributing_snoc. unfold load_step.
  destruct (load_dat cfg (content f)) as [[|r df]|e] eqn:E.
  - rewrite List.app_nil_r, IH. apply map_ext. intros st.
    rewrite frames_for_snoc, E, List.app_nil_r. reflexivity.
  - cbn [fst]. rewrite IH, first_seen_snoc.
    rewrite (@setdefault_append_keys (fun k => frames_for cfg k fs));
      [|apply first_seen_NoDup
       |intros H; apply frames_for_nil; rewrite <- first_seen_In; exact H].
    apply map_ext. intros st. rewrite frames_for_snoc, E. reflexivity.
  - cbn [fst]. rewrite List.app_nil_r, IH. apply map_ext. intros st.
    rewrite frames_for_snoc, E, List.app_nil_r. reflexivity.
Qed.

Lemma load_all_warnings (files : list File) :
  snd (load_all cfg files) = warnings cfg files.
Proof.
  induction files as [|f fs IH] using rev_ind; [reflexivity|].
  rewrite load_all_snoc. unfold warnings in *. rewrite flat_map_app.
  simpl. rewrite List.app_nil_r, <- IH. unfold load_step.
  destruct (load_dat cfg (content f)) as [[|r df]|e]; cbn [snd];
    try rewrite List.app_nil_r; reflexivity.
Qed.

End Records.

(** X8: after the first loop each station has one record, the stations
    stand in the order in which a file with at least one row first named
    them, and the record of a station holds the frames of all its files
    with at least one row, in file order. *)
Theorem records_by_station (P : Parsers) (cfg : Config)
        (files : list File) :
  fst (load_all cfg files)
  = map (fun st => (st, frames_for cfg st files))
        (first_seen (contributing cfg files)) /\
  NoDup (map fst (fst (load_all cfg files))) /\
  (forall st, In st (map fst (fst (load_all cfg files)))
              <-> exists f r df,
                  In f files /\
                  load_dat cfg (content f) = Ok (r :: df) /\
                  station_name_from_path (parts f) = st).
Proof.
  pose proof (load_all_records cfg files) as Hrec.
  assert (Hkeys : map fst (fst (load_all cfg files))
                  = first_seen (contributing cfg files)).
  { rewrite Hrec, map_map. cbn [fst]. apply map_id. }
  split; [exact Hrec|]. rewrite Hkeys.
  split; [apply first_seen_NoDup|].
  intros st. rewrite first_seen_In. unfold contributing.
  rewrite in_flat_map. split.
  - intros (f & Hf & Hin).
    destruct (load_dat cfg (content f)) as [[|r df]|e] eqn:E;
      simpl in Hin; try tauto.
    destruct Hin as [<-|[]]. exists f, r, df. auto.
  - intros (f & r & df & Hf & E & <-). exists f. split; [exact Hf|].
    rewrite E. left. reflexivity.
Qed.

(** X9: the printed lines are one warning for every file whose parsing
    raises, in file order, followed by the line that reports the number
    of series when the payload is written, and by nothing when the run
    ends with an exception. *)
Theorem printed_lines (P : Parsers) (cfg : Config) (now : Timestamp)
        (files : list File) :
  fst (main cfg now files)
  = warnings cfg files
    ++ match snd (main cfg now files) with
       | Ok p => [ok_line (count_series (meta p))]
       | Raise _ => []
       end.
Proof.
  rewrite <- load_all_warnings. unfold main.
  destruct (load_all cfg files) as [records log]. cbn [snd].
  destruct (build_series cfg records); cbn [fst snd].
  - reflexivity.
  - rewrite List.app_nil_r. reflexivity.
Qed.

Section SeriesOfStations.

Context {P : Parsers}.
Variable cfg : Config.

Lemma build_series_keys (G : string -> list Frame) (keys : list string)
      (series : list Series) :
  build_series cfg (map (fun k => (k, G k)) keys) = Ok series ->
  Forall2 (fun st s => exists merged,
               aggregate cfg (G st) = Ok merged /\ s = render st merged)
          keys series.
Proof.
  revert series. induction keys as [|k keys IH]; simpl.
  - intros series [= <-]. constructor.
  - intros series. destruct (aggregate cfg (G k)) as [merged|] eqn:Ha;
      cbn [bind]; [|discriminate].
    destruct (build_series cfg _) as [rest|]; cbn [bind]; [|discriminate].
    intros [= <-]. constructor; [eauto | auto].
Qed.

(** The second loop raises when the rule is rejected and there is a
    station. *)
Lemma build_series_invalid (r : string) (records : Records) :
  RESAMPLE_RULE cfg = Some r ->
  disabled (Some r) = false ->
  to_offset r = None ->
  records <> [] ->
  build_series cfg records = Raise (ValueError ("Invalid frequency: " ++ r)).
Proof.
  intros Hrule Hen Hoff. destruct records as [|[st dfs] records];
    [congruence|]. intros _. cbn [build_series]. unfold aggregate.
  rewrite Hrule. unfold resample_df. simpl in Hen. rewrite Hen, Hoff.
  reflexivity.
Qed.

End SeriesOfStations.

(** X10: the payload has one series per station, in the order in which a
    file with at least one row first named the station, and the series of
    a station is the aggregate of the rows of all its files. *)
Theorem series_by_station (P : Parsers) (cfg : Config) (now : Timestamp)
        (files : list File) (p : Payload) :
  snd (main cfg now files) = Ok p ->
  map station (series p) = first_seen (contributing cfg files) /\
  NoDup (map station (series p)) /\
  Forall2 (fun st s => exists merged,
               aggregate cfg (frames_for cfg st files) = Ok merged /\
               s = render st merged)
          (first_seen (contributing cfg files)) (series p).
Proof.
  intros Hmain. destruct (main_series cfg now files Hmain) as [Hb _].
  rewrite load_all_records in Hb.
  pose proof (build_series_keys cfg _ _ Hb) as Hall.
  assert (Hst : map station (series p) = first_seen (contributing cfg files)).
  { clear - Hall.
    induction Hall as [|st s keys ss (merged & _ & ->) _ IH]; simpl;
      [reflexivity | congruence]. }
  split; [exact Hst|]. split; [|exact Hall].
  rewrite Hst. apply first_seen_NoDup.
Qed.

Lemma series_by_station_witness :
  exists p,
    snd (main (P := Ref.parsers) default_config 0%Z
              [scenario_file; subsecond_file; scenario_file]) = Ok p /\
    map station (series p) = ["MJ03F/PARO1"; "s"]%string.
Proof.
  eexists. split; [vm_compute; reflexivity|].
  rewrite (proj1 (@series_by_station Ref.parsers default_config 0%Z
                    [scenario_file; subsecond_file; scenario_file] _
                    ltac:(vm_compute; reflexivity))).
  vm_compute. reflexivity.
Defined.

(** X11: a rule that is not disabled and that [resample] rejects ends
    the run with a [ValueError] as soon as one file has yielded a row,
    after the warnings and without the line of success; when no file
    yields a row, and so also without any file, the run writes a payload
    without series whatever the rule is. *)
Theorem rejected_rule_ends_run (P : Parsers) (cfg : Config)
        (now : Timestamp) (files : list File) (r : string) :
  RESAMPLE_RULE cfg = Some r ->
  disabled (Some r) = false ->
  to_offset r = None ->
  (contributing cfg files <> [] ->
   exists msg,
     main cfg now files = (warnings cfg files, Raise (ValueError msg))) /\
  (contributing cfg files = [] ->
   main cfg now files
   = (warnings cfg files ++ [ok_line 0], Ok (payload_of cfg now []))).
Proof.
  intros Hrule Hen Hoff.
  pose proof (load_all_records cfg files) as Hrec.
  pose proof (load_all_warnings cfg files) as Hlog.
  unfold main. destruct (load_all cfg files) as [records log].
  cbn [fst snd] in Hrec, Hlog. subst log. split.
  - intros Hne. eexists.
    rewrite (@build_series_invalid P cfg r records Hrule Hen Hoff);
      [reflexivity|].
    rewrite Hrec. intros Hnil. apply map_eq_nil in Hnil.
    destruct (contributing cfg files) as [|s l] eqn:Ec; [congruence|].
    assert (Hin : In s (first_seen (s :: l)))
      by (apply first_seen_In; left; reflexivity).
    rewrite Hnil in Hin. exact Hin.
  - intros Hnil. rewrite Hrec, Hnil. reflexivity.
Qed.

Lemma rejected_rule_ends_run_witness :
  (exists msg,
     main (P := Ref.parsers) (with_rule (Some "fortnight"%string)) 0%Z
          [empty_file; scenario_file]
     = (warnings (P := Ref.parsers) (with_rule (Some "fortnight"%string))
                 [empty_file; scenario_file],
        Raise (ValueError msg))) /\
  main (P := Ref.parsers) (with_rule (Some "fortnight"%string)) 0%Z []
  = (["[OK] Wrote site/data/all_series.json with 0 series."%string],
     Ok (payload_of (with_rule (Some "fortnight"%string)) 0%Z [])).
Proof.
  destruct (@rejected_rule_ends_run Ref.parsers
              (with_rule (Some "fortnight"%string)) 0%Z
              [empty_file; scenario_file] "fortnight"%string
              eq_refl eq_refl eq_refl) as [H1 _].
  destruct (@rejected_rule_ends_run Ref.parsers
              (with_rule (Some "fortnight"%string)) 0%Z
              [] "fortnight"%string eq_refl eq_refl eq_refl) as [_ H2].
  split.
  - apply H1. vm_compute. discriminate.
  - rewrite H2; reflexivity.
Defined.

(** X12: when [read_csv] raises with the sniffed delimiter and again with
    blank-separated fields, [load_dat] raises the second exception, and
    the warning of the file carries the message of that second
    exception. *)
Theorem both_readers_fail (P : Parsers) (cfg : Config) (now : Timestamp)
        (fs1 fs2 : list File) (f : File) (e1 e2 : exn) :
  read_csv SepSniff (content f) = Raise e1 ->
  read_csv SepWhitespace (content f) = Raise e2 ->
  load_dat cfg (content f) = Raise e2 /\
  In ("[WARN] Failed to parse " ++ path_str f ++ ": " ++ str e2)%string
     (fst (main cfg now (fs1 ++ f :: fs2))).
Proof.
  intros H1 H2.
  assert (Hload : load_dat cfg (content f) = Raise e2)
    by (unfold load_dat; rewrite H1; cbn [try_except]; rewrite H2;
        reflexivity).
  split; [exact Hload|].
  destruct (load_all_raise cfg fs1 fs2 f Hload) as (_ & log1 & log2 & _ & Hlog).
  destruct (main_log cfg now (fs1 ++ f :: fs2)) as [tail ->].
  rewrite Hlog. apply in_or_app. left. apply in_or_app. right.
  left. reflexivity.
Qed.

Lemma both_readers_fail_witness :
  load_dat (P := Ref.parsers) default_config (content empty_file)
  = Raise (EmptyDataError "No columns to parse from file").
Proof.
  refine (proj1 (@both_readers_fail Ref.parsers default_config 0%Z [] []
                   empty_file _ _ _ _)); vm_compute; reflexivity.
Defined.

(* ===================================================================== *)
(** ** The size of a series *)
(* ===================================================================== *)

Section AggregateLength.

Context {P : Parsers}.
Variable cfg : Config.

Lemma strictly_increasing_NoDup (ts : list Z) : increasing ts -> NoDup ts.
Proof.
  unfold increasing. induction 1 as [|a l _ IH Hall]; constructor; [|exact IH].
  intros Hin. rewrite Forall_forall in Hall. specialize (Hall a Hin). lia.
Qed.

Lemma groupby_mean_length (df : Frame) :
  (List.length (groupby_mean df) <= List.length df)%nat.
Proof.
  rewrite <- (length_map fst (groupby_mean df)), <- (length_map fst df).
  apply NoDup_incl_length.
  - apply strictly_increasing_NoDup, groupby_mean_increasing.
  - intros t Ht. rewrite groupby_mean_keys in Ht.
    apply sort_uniq_In. exact Ht.
Qed.

(** An instant lies in one bin only. *)
Lemma bin_start_unique (o w e t : Z) :
  (0 < w)%Z -> ((e - o) mod w = 0)%Z -> (e <= t < e + w)%Z ->
  bin_start o w t = e.
Proof.
  intros Hw He Ht. rewrite bin_start_eq by exact Hw.
  apply Z.mod_divide in He; [|lia]. destruct He as [q Hq].
  assert (Hmod : ((t - o) mod w = t - e)%Z).
  { symmetry. apply (Z.mod_unique_pos (t - o) w q (t - e)); lia. }
  lia.
Qed.

Lemma resample_length (w : Z) (df : Frame) :
  (0 < w)%Z ->
  (List.length (series_dropna (resample_mean w df)) <= List.length df)%nat.
Proof.
  intros Hw.
  rewrite <- (length_map fst (series_dropna (resample_mean w df))).
  rewrite <- (length_map (fun r => bin_start (origin_of df) w (fst r)) df).
  apply NoDup_incl_length.
  - apply strictly_increasing_NoDup, resample_increasing. exact Hw.
  - intros b Hb. apply in_map_iff in Hb. destruct Hb as ([b' v] & <- & Hin).
    cbn [fst]. apply (proj1 (@resample_In w df b' v)) in Hin.
    destruct Hin as (He & Hm & Hv). subst v.
    apply mean_notna in Hv. rename Hv into Hm. unfold values_in in Hm.
    destruct (filter _ df) as [|r l] eqn:Ef;
      [exfalso; apply Hm; reflexivity|].
    assert (Hr : In r (filter (fun r => (b' <=? fst r)%Z
                                        && (fst r <? b' + w)%Z) df))
      by (rewrite Ef; left; reflexivity).
    apply filter_In in Hr. destruct Hr as [Hr Hc].
    apply andb_true_iff in Hc. destruct Hc as [H1 H2].
    apply Z.leb_le in H1. apply Z.ltb_lt in H2.
    apply in_map_iff. exists r. split; [|exact Hr].
    apply bin_start_unique; [exact Hw| |lia].
    unfold origin_of. destruct (map fst df) as [|t0 ts]; [destruct He|].
    apply bin_edges_aligned; assumption.
Qed.

End AggregateLength.

(** X15: the aggregated series of a station never has more points than
    the station has rows, with and without resampling. *)
Theorem aggregate_length (P : Parsers) (cfg : Config) (dfs : list Frame)
        (merged : Frame) :
  aggregate cfg dfs = Ok merged ->
  (List.length merged <= List.length (List.concat dfs))%nat.
Proof.
  unfold aggregate. intros Ha.
  assert (Hd : (List.length (groupby_mean (sort_values (frame_dropna
                                                          (List.concat dfs))))
                <= List.length (List.concat dfs))%nat).
  { etransitivity; [apply groupby_mean_length|].
    rewrite sort_values_length. apply frame_dropna_length. }
  destruct (resample_df_cases _ _ Ha) as [->|[w ->]]; [exact Hd|].
  etransitivity; [apply resample_length; lia | exact Hd].
Qed.

Lemma aggregate_length_witness :
  exists merged,
    aggregate (P := Ref.parsers) default_config [scenario_rows] = Ok merged /\
    (List.length merged <= 3)%nat.
Proof.
  eexists. split; [vm_compute; reflexivity|].
  refine (@aggregate_length Ref.parsers default_config [scenario_rows] _ _).
  vm_compute. reflexivity.
Defined.

(* ===================================================================== *)
(** ** The number of series *)
(* ===================================================================== *)

Section CountSeries.

Lemma Forall2_right {A B : Type} (Q : B -> Prop) (R : A -> B -> Prop)
      (l : list A) (l' : list B) :
  (forall a b, R a b -> Q b) -> Forall2 R l l' -> Forall Q l'.
Proof.
  intros H. induction 1; constructor; eauto.
Qed.

Lemma count_nonempty (series : list Series) :
  Forall (fun s => x s <> []) series ->
  List.length series
  = List.length (filter (fun s => negb (List.length (x s) =? 0)%nat) series).
Proof.
  induction 1 as [|s ss Hx _ IH]; simpl; [reflexivity|].
  destruct (x s); [congruence|]. simpl. congruence.
Qed.

End CountSeries.

(** C5, as stated, fails under resampling: a station whose file holds
    +inf at 00:00 and -inf at 00:05 has two valid rows; both fall in the
    one 15-minute bin, whose mean is NaN and is dropped, so the station
    is emitted with no point and counted. *)
Lemma empty_series_is_counted :
  exists p s,
    load_dat (P := Ref.parsers) default_config (content infinities_file)
    = Ok [(1704067200000000000%Z, PosInf); (1704067500000000000%Z, NegInf)] /\
    snd (main (P := Ref.parsers) default_config 0%Z [infinities_file]) = Ok p /\
    series p = [s] /\
    station s = "i"%string /\
    x s = [] /\
    y s = [] /\
    count_series (meta p) = 1%nat /\
    filter (fun s => negb (List.length (x s) =? 0)%nat) (series p) = [].
Proof.
  do 2 eexists. split; [vm_compute; reflexivity|].
  split; [vm_compute; reflexivity|]. repeat split.
Qed.

(** C5, amended: in every run that writes its payload, [count_series] is
    the number of emitted series, one for each station of which some file
    yields at least one valid row, in the order of their first such file;
    a file that yields no valid row changes nothing of the run, and a
    station without a valid row has no series.  Without resampling every
    emitted series holds at least one point, and [count_series] is the
    number of series with at least one point.  Under resampling the
    series of a station holds a point exactly when some bin has a mean
    that is not NaN, as is the case, in exact arithmetic, when the values
    of the station are finite; a station of which every bin has the mean
    NaN is emitted without a point, and counted. *)
Theorem count_series_counts_stations (P : Parsers) (cfg : Config)
        (now : Timestamp) (files : list File) (p : Payload) :
  snd (main cfg now files) = Ok p ->
  count_series (meta p) = List.length (series p) /\
  map station (series p) = first_seen (contributing cfg files) /\
  NoDup (map station (series p)) /\
  (forall st, In st (map station (series p))
              <-> exists f r df,
                  In f files /\
                  load_dat cfg (content f) = Ok (r :: df) /\
                  station_name_from_path (parts f) = st) /\
  Forall (fun s => List.length (y s) = List.length (x s)) (series p) /\
  (disabled (RESAMPLE_RULE cfg) = true ->
   Forall (fun s => x s <> []) (series p) /\
   count_series (meta p)
   = List.length (filter (fun s => negb (List.length (x s) =? 0)%nat)
                         (series p))) /\
  Forall2 (fun rec s =>
             station s = fst rec /\
             (Forall (fun r => finite (snd r)) (List.concat (snd rec)) ->
              x s <> []) /\
             (forall r w,
                 RESAMPLE_RULE cfg = Some r ->
                 disabled (Some r) = false ->
                 to_offset r = Some w ->
                 let dedup := groupby_mean (sort_values (frame_dropna
                                (List.concat (snd rec)))) in
                 x s <> [] <->
                 exists b, In b (bin_edges (Zpos w) (map fst dedup)) /\
                           mean (values_in b (Zpos w) dedup) <> NaN))
          (fst (load_all cfg files)) (series p) /\
  (forall fs1 f fs2,
      files = fs1 ++ f :: fs2 ->
      load_dat cfg (content f) = Ok [] ->
      main cfg now files = main cfg now (fs1 ++ fs2)).
Proof.
  intros Hmain. destruct (main_series cfg now files Hmain) as [Hb Hp].
  pose proof (build_series_nonempty cfg (load_all_populated cfg files) Hb)
    as Hne.
  assert (Hcount : count_series (meta p) = List.length (series p))
    by (rewrite Hp at 1; reflexivity).
  assert (Hst : map station (series p) = first_seen (contributing cfg files)).
  { rewrite (build_series_stations cfg _ Hb), load_all_records, map_map.
    cbn [fst]. apply map_id. }
  split; [exact Hcount|]. split; [exact Hst|].
  split; [rewrite Hst; apply first_seen_NoDup|].
  split; [|split; [exact (build_series_lengths cfg _ Hb)|split; [|split]]].
  - intros st. rewrite Hst, first_seen_In. unfold contributing.
    rewrite in_flat_map. split.
    + intros (f & Hf & Hin).
      destruct (load_dat cfg (content f)) as [[|r df]|e] eqn:E;
        simpl in Hin; try tauto.
      destruct Hin as [<-|[]]. exists f, r, df. auto.
    + intros (f & r & df & Hf & E & <-). exists f. split; [exact Hf|].
      rewrite E. left. reflexivity.
  - intros Hdis.
    assert (Hall : Forall (fun s => x s <> []) (series p)).
    { eapply Forall2_right; [|exact Hne]. intros rec s (H & _). auto. }
    split; [exact Hall|]. rewrite Hcount. apply count_nonempty. exact Hall.
  - pose proof (build_series_spec cfg _ Hb) as Hspec. clear - Hne Hspec.
    induction Hne as [|rec s records series (_ & Hf & Hbin) _ IH];
      [constructor|].
    inversion Hspec as [|? ? ? ? (merged & _ & ->) Hrest]; subst.
    constructor; [|exact (IH Hrest)].
    split; [reflexivity|]. split; [exact Hf | exact Hbin].
  - intros fs1 f fs2 -> Hf. unfold main.
    rewrite (load_all_empty cfg fs1 fs2 f Hf). reflexivity.
Qed.

Lemma count_series_counts_stations_witness :
  exists p,
    snd (main (P := Ref.parsers) default_config 0%Z
              [scenario_file; subsecond_file; infinities_file]) = Ok p /\
    count_series (meta p) = 3%nat /\
    map station (series p) = ["MJ03F/PARO1"; "s"; "i"]%string.
Proof.
  eexists. split; [vm_compute; reflexivity|]. split; [reflexivity|].
  rewrite (proj1 (proj2 (@count_series_counts_stations Ref.parsers
                           default_config 0%Z
                           [scenario_file; subsecond_file; infinities_file]
                           _ ltac:(vm_compute; reflexivity)))).
  vm_compute. reflexivity.
Defined.
